(** * SceneJS.BoundingBox: culling state machine and level-of-detail selection

    A shallow embedding of [src/scenejs/boundary/boundingBox.js].

    Conventions of the embedding.
    - JavaScript numbers are doubles; only the comparisons [<=], [>=], [!=]
      and [==] of the source are used on them.  Extents, projected sizes,
      state and level codes are modelled by [Z].  A threshold of the [levels]
      table is a [Num]: an ordered value or NaN, on which every comparison of
      the source is false.
    - The node object is a record; every method takes the node ([this]) and
      returns the mutated node.  An exception is a [Throw] completion that is
      returned together with the node as mutated up to the throw.
    - The collaborators of the node (parameter provider, model transform
      module, instancing module, locality module, frustum module, the
      math helpers and the child traversal of [SceneJS.Node]) are not part of
      the source file.  Their answers for one traversal frame are the fields
      of [Services]; every call made to them is recorded, in order, in the
      frame's trace of [Call]s. *)

From Stdlib Require Import ZArith List Bool String Sorted Lia.
Import ListNotations.
Local Open Scope string_scope.
Local Open Scope list_scope.
Local Open Scope Z_scope.

(** ** Data *)

Definition Point : Type := Z * Z * Z.

(** The view-space box [{min: [x,y,z], max: [x,y,z]}]. *)
Record Box3 : Type := mkBox3 { box_min : Point; box_max : Point }.

(** A threshold of the [levels] table.  NaN is kept apart from the
    ordered values, because [a >= b] and [a <= b] are both false as soon as
    one side is NaN. *)
Inductive Num : Type :=
| NaN
| Fin (z : Z).

(** [a >= b] on two thresholds (line 344). *)
Definition geNum (a b : Num) : bool :=
  match a, b with
  | Fin x, Fin y => x >=? y
  | _, _ => false
  end.

(** [t <= size] on a threshold and a projected size (line 436). *)
Definition leSize (t : Num) (size : Z) : bool :=
  match t with
  | Fin x => x <=? size
  | NaN => false
  end.

(** A 4x4 matrix, as the flat array the transform module hands out. *)
Definition Matrix : Type := list Z.

(** Modelled from the spec: the constants [SceneJS._math_INTERSECT_FRUSTUM],
    [SceneJS._math_INSIDE_FRUSTUM] and [SceneJS._math_OUTSIDE_FRUSTUM] are
    declared outside the source file; the frustum provider answers
    [testIntersection(box) -> {INSIDE, INTERSECTING, OUTSIDE}]. *)
Inductive FrustumResult : Type :=
| _math_INTERSECT_FRUSTUM
| _math_INSIDE_FRUSTUM
| _math_OUTSIDE_FRUSTUM.

Definition STATE_INITIAL : Z := 0.
Definition STATE_OUTSIDE_OUTER_LOCALITY : Z := 1.
Definition STATE_INTERSECTING_OUTER_LOCALITY : Z := 2.
Definition STATE_INTERSECTING_INNER_LOCALITY : Z := 3.
Definition STATE_INTERSECTING_FRUSTUM : Z := 4.

(** The two messages of [NodeConfigExpectedException] raised by [_init]. *)
Inductive ConfigError : Type :=
| LevelsValueForEachChild   (* "... should have a value for each child node" *)
| LevelsAscendingUnique.    (* "... should be an ascending list of unique values" *)

Inductive Completion : Type :=
| Normal
| Throw (e : ConfigError).

(** The configuration object: a missing property is [None]. *)
Record Params : Type := mkParams {
  xmin : option Z; ymin : option Z; zmin : option Z;
  xmax : option Z; ymax : option Z; zmax : option Z;
  levels : option (list Num)
}.

(** Payload objects of the two events. *)
Inductive EventParams : Type :=
| StateParams (oldState newState : Z)
| LevelParams (oldLevel newLevel : Z).

(** Calls that the node makes to its collaborators. *)
Inductive Call : Type :=
| GetParams
| GetTransform
| Instancing
| TestOuterRadius (b : option Box3)
| TestInnerRadius (b : option Box3)
| TestFrustum (b : option Box3)
| GetProjectedSize (b : option Box3)
| RenderNode (i : nat)
| RenderNodes
| FireEvent (name : string) (params : EventParams).

Record ModelTransform : Type := mkTransform {
  identity : bool;
  fixed : bool;
  matrix : Matrix
}.

(** What the collaborators answer during one traversal frame. *)
Record Services : Type := mkServices {
  getParams : Params;
  getTransform : ModelTransform;
  instancing : bool;
  _math_transformPoints3 : Matrix -> option (list Point) -> list Point;
  _math_Box3_fromPoints : list Point -> Box3;
  testAxisBoxIntersectOuterRadius : option Box3 -> bool;
  testAxisBoxIntersectInnerRadius : option Box3 -> bool;
  testAxisBoxIntersection : option Box3 -> FrustumResult;
  getProjectedSize : option Box3 -> Z
}.

(** The node.  [_children], [_fixedParams], [_listeners] and [_memoLevel] are
    inherited from [SceneJS.Node]; a child is an opaque handle.  The field
    [_states] of the source is written once and its only read is discarded. *)
Record BoundingBox : Type := mkBoundingBox {
  _xmin : Z; _ymin : Z; _zmin : Z;
  _xmax : Z; _ymax : Z; _zmax : Z;
  _levels : option (list Num);
  _level : Z;
  _state : Z;
  _objectCoords : option (list Point);
  _viewBox : option Box3;
  _memoLevel : Z;
  _fixedParams : bool;
  _children : list nat;
  _listeners : string -> bool
}.

(** *** Field updates *)

Definition set_extents (x0 y0 z0 x1 y1 z1 : Z) (this : BoundingBox) : BoundingBox :=
  mkBoundingBox x0 y0 z0 x1 y1 z1
    (_levels this) (_level this) (_state this) (_objectCoords this)
    (_viewBox this) (_memoLevel this) (_fixedParams this) (_children this)
    (_listeners this).

Definition set_levels (v : option (list Num)) (this : BoundingBox) : BoundingBox :=
  mkBoundingBox (_xmin this) (_ymin this) (_zmin this)
    (_xmax this) (_ymax this) (_zmax this)
    v (_level this) (_state this) (_objectCoords this)
    (_viewBox this) (_memoLevel this) (_fixedParams this) (_children this)
    (_listeners this).

Definition set_level (v : Z) (this : BoundingBox) : BoundingBox :=
  mkBoundingBox (_xmin this) (_ymin this) (_zmin this)
    (_xmax this) (_ymax this) (_zmax this)
    (_levels this) v (_state this) (_objectCoords this)
    (_viewBox this) (_memoLevel this) (_fixedParams this) (_children this)
    (_listeners this).

Definition set_state (v : Z) (this : BoundingBox) : BoundingBox :=
  mkBoundingBox (_xmin this) (_ymin this) (_zmin this)
    (_xmax this) (_ymax this) (_zmax this)
    (_levels this) (_level this) v (_objectCoords this)
    (_viewBox this) (_memoLevel this) (_fixedParams this) (_children this)
    (_listeners this).

Definition set_objectCoords (v : option (list Point)) (this : BoundingBox) : BoundingBox :=
  mkBoundingBox (_xmin this) (_ymin this) (_zmin this)
    (_xmax this) (_ymax this) (_zmax this)
    (_levels this) (_level this) (_state this) v
    (_viewBox this) (_memoLevel this) (_fixedParams this) (_children this)
    (_listeners this).

Definition set_viewBox (v : option Box3) (this : BoundingBox) : BoundingBox :=
  mkBoundingBox (_xmin this) (_ymin this) (_zmin this)
    (_xmax this) (_ymax this) (_zmax this)
    (_levels this) (_level this) (_state this) (_objectCoords this)
    v (_memoLevel this) (_fixedParams this) (_children this)
    (_listeners this).

Definition set_memoLevel (v : Z) (this : BoundingBox) : BoundingBox :=
  mkBoundingBox (_xmin this) (_ymin this) (_zmin this)
    (_xmax this) (_ymax this) (_zmax this)
    (_levels this) (_level this) (_state this) (_objectCoords this)
    (_viewBox this) v (_fixedParams this) (_children this)
    (_listeners this).

(** ** Construction and setters *)

(** The constructor body (lines 81-99) for a node whose [SceneJS.Node] part
    has the given children, listeners and parameter kind.  The static
    parameters are handed to [_init] by the constructor when [_fixedParams]
    holds; that call is [construct] below.  The memo level is initialised by
    [SceneJS.Node], outside the source file; it starts at 0, the dirty level
    that [_render] tests for first. *)
Definition fresh (fixedParams : bool) (children : list nat)
    (listeners : string -> bool) : BoundingBox :=
  mkBoundingBox 0 0 0 0 0 0 None (-1) STATE_INITIAL None None 0
    fixedParams children listeners.

Definition setXMin (v : Z) (this : BoundingBox) : BoundingBox :=
  set_memoLevel 0
    (set_extents v (_ymin this) (_zmin this) (_xmax this) (_ymax this) (_zmax this) this).

Definition setYMin (v : Z) (this : BoundingBox) : BoundingBox :=
  set_memoLevel 0
    (set_extents (_xmin this) v (_zmin this) (_xmax this) (_ymax this) (_zmax this) this).

Definition setZMin (v : Z) (this : BoundingBox) : BoundingBox :=
  set_memoLevel 0
    (set_extents (_xmin this) (_ymin this) v (_xmax this) (_ymax this) (_zmax this) this).

Definition setXMax (v : Z) (this : BoundingBox) : BoundingBox :=
  set_memoLevel 0
    (set_extents (_xmin this) (_ymin this) (_zmin this) v (_ymax this) (_zmax this) this).

Definition setYMax (v : Z) (this : BoundingBox) : BoundingBox :=
  set_memoLevel 0
    (set_extents (_xmin this) (_ymin this) (_zmin this) (_xmax this) v (_zmax this) this).

Definition setZMax (v : Z) (this : BoundingBox) : BoundingBox :=
  set_memoLevel 0
    (set_extents (_xmin this) (_ymin this) (_zmin this) (_xmax this) (_ymax this) v this).

(** [p.x || 0]: a missing (or zero) property reads as 0. *)
Definition orZero (v : option Z) : Z :=
  match v with Some x => x | None => 0 end.

(** ** [_changeState] (lines 135-143) *)

Definition _changeState (newState : Z) (this : BoundingBox) : BoundingBox * list Call :=
  let this := set_state newState this in
  if _listeners this "state-changed"
  then (this, [FireEvent "state-changed" (StateParams (_state this) newState)])
  else (this, []).

(** ** [_init] (lines 330-351) *)

(** The loop [for (i = 1; i < levels.length; i++)]: [true] when some
    adjacent pair has [levels[i-1] >= levels[i]], that is, when it throws. *)
Fixpoint descends (lv : list Num) : bool :=
  match lv with
  | a :: (b :: _) as rest => if geNum a b then true else descends rest
  | _ => false
  end.

Definition _init (params : Params) (this : BoundingBox) : BoundingBox * Completion :=
  let this :=
    set_extents (orZero (xmin params)) (orZero (ymin params)) (orZero (zmin params))
                (orZero (xmax params)) (orZero (ymax params)) (orZero (zmax params))
                this in
  match levels params with
  | Some lv =>
      if negb (Nat.eqb (List.length lv) (List.length (_children this)))
      then (this, Throw LevelsValueForEachChild)
      else if descends lv
      then (this, Throw LevelsAscendingUnique)
      else (set_levels (Some lv) this, Normal)
  | None => (this, Normal)
  end.

(** The constructor followed by its [_init] call on static parameters. *)
Definition construct (params : Params) (children : list nat)
    (listeners : string -> bool) : BoundingBox * Completion :=
  _init params (fresh true children listeners).

Definition setBoundary (boundary : Params) (this : BoundingBox) : BoundingBox :=
  set_memoLevel 0
    (set_extents (orZero (xmin boundary)) (orZero (ymin boundary)) (orZero (zmin boundary))
                 (orZero (xmax boundary)) (orZero (ymax boundary)) (orZero (zmax boundary))
                 this).

Definition getBoundary (this : BoundingBox) : Params :=
  mkParams (Some (_xmin this)) (Some (_ymin this)) (Some (_zmin this))
           (Some (_xmax this)) (Some (_ymax this)) (Some (_zmax this)) None.

(** ** [_render] (lines 354-492) *)

(** *** Refreshing the cached geometry (lines 360-405) *)

Definition objectCorners (this : BoundingBox) : list Point :=
  [ (_xmin this, _ymin this, _zmin this);
    (_xmax this, _ymin this, _zmin this);
    (_xmax this, _ymax this, _zmin this);
    (_xmin this, _ymax this, _zmin this);
    (_xmin this, _ymin this, _zmax this);
    (_xmax this, _ymin this, _zmax this);
    (_xmax this, _ymax this, _zmax this);
    (_xmin this, _ymax this, _zmax this) ].

Record Refreshed : Type := mkRefreshed {
  r_this : BoundingBox;
  r_trace : list Call;
  r_completion : Completion
}.

(** The body of [if (this._memoLevel == 0)]. *)
Definition refreshDirty (sv : Services) (this : BoundingBox) : Refreshed :=
  let this := set_state STATE_INITIAL this in
  let '(this, tr, c) :=
    if negb (_fixedParams this)
    then let '(this, c) := _init (getParams sv) this in (this, [GetParams], c)
    else (set_memoLevel 1 this, [], Normal) in
  match c with
  | Throw e => mkRefreshed this tr (Throw e)
  | Normal =>
      let modelTransform := getTransform sv in
      if negb (identity modelTransform)
      then mkRefreshed (set_objectCoords (Some (objectCorners this)) this)
                       (tr ++ [GetTransform]) Normal
      else mkRefreshed
             (set_memoLevel 2
                (set_viewBox
                   (Some (mkBox3 (_xmin this, _ymin this, _zmin this)
                                 (_xmax this, _ymax this, _zmax this))) this))
             (tr ++ [GetTransform]) Normal
  end.

(** The statement [if (this._memoLevel < 2)]. *)
Definition refreshView (sv : Services) (this : BoundingBox) : BoundingBox * list Call :=
  if _memoLevel this <? 2 then
    let modelTransform := getTransform sv in
    let this :=
      set_viewBox
        (Some (_math_Box3_fromPoints sv
                 (_math_transformPoints3 sv (matrix modelTransform) (_objectCoords this))))
        this in
    if fixed modelTransform then
      if _memoLevel this =? 1 then
        if negb (instancing sv)
        then (set_memoLevel 2 (set_objectCoords None this), [GetTransform; Instancing])
        else (this, [GetTransform; Instancing])
      else (this, [GetTransform])
    else (this, [GetTransform])
  else (this, []).

Definition refresh (sv : Services) (this : BoundingBox) : Refreshed :=
  let r := if _memoLevel this =? 0 then refreshDirty sv this
           else mkRefreshed this [] Normal in
  match r_completion r with
  | Throw e => r
  | Normal =>
      let '(this, tr) := refreshView sv (r_this r) in
      mkRefreshed this (r_trace r ++ tr) Normal
  end.

(** *** The classification cascade (lines 407-491) *)

(** [if (newState != origState) { this._changeState(newState); }] *)
Definition changeIfNew (newState origState : Z) (this : BoundingBox)
  : BoundingBox * list Call :=
  if negb (newState =? origState) then _changeState newState this else (this, []).

(** [this._levels[i] <= size]; an index outside the array reads [undefined],
    which compares false. *)
Definition levelAtMost (lv : list Num) (i : nat) (size : Z) : bool :=
  match nth_error lv i with
  | Some t => leSize t size
  | None => false
  end.

(** The loop [for (i = levels.length - 1; i >= 0; i--)] (lines 435-461),
    entered with [k = i + 1]; its body ends in [return]. *)
Fixpoint lodLoop (origLevel size : Z) (lv : list Num) (k : nat) (this : BoundingBox)
  : BoundingBox * list Call :=
  match k with
  | O => (this, [])
  | S i =>
      if levelAtMost lv i size then
        let this := set_level (Z.of_nat i) this in
        let ev :=
          if negb (origLevel =? _level this) then
            if _listeners this "lod-selected"
            then [FireEvent "lod-selected" (LevelParams origLevel (_level this))]
            else []
          else [] in
        if (0 <? List.length (_children this))%nat
        then (this, ev ++ [RenderNode i])
        else (this, ev ++ [RenderNodes])
      else lodLoop origLevel size lv i this
  end.

(** Returns the node, the calls made and the final value of the local
    variable [newState]. *)
Definition cascade (sv : Services) (origLevel origState : Z) (this : BoundingBox)
  : BoundingBox * list Call * Z :=
  let box := _viewBox this in
  if testAxisBoxIntersectOuterRadius sv box then
    if testAxisBoxIntersectInnerRadius sv box then
      match testAxisBoxIntersection sv box with
      | _math_INTERSECT_FRUSTUM | _math_INSIDE_FRUSTUM =>
          let newState := STATE_INTERSECTING_FRUSTUM in
          let '(this, ev) := changeIfNew newState origState this in
          let tr := [TestOuterRadius box; TestInnerRadius box; TestFrustum box] ++ ev in
          match _levels this with
          | Some lv =>
              let size := getProjectedSize sv box in
              let '(this, sel) := lodLoop origLevel size lv (List.length lv) this in
              (this, tr ++ [GetProjectedSize box] ++ sel, newState)
          | None => (this, tr ++ [RenderNodes], newState)
          end
      | _math_OUTSIDE_FRUSTUM =>
          let newState := STATE_INTERSECTING_INNER_LOCALITY in
          let '(this, ev) := changeIfNew newState origState this in
          (this, [TestOuterRadius box; TestInnerRadius box; TestFrustum box] ++ ev, newState)
      end
    else
      let newState := STATE_INTERSECTING_OUTER_LOCALITY in
      let '(this, ev) := changeIfNew newState origState this in
      (this, [TestOuterRadius box; TestInnerRadius box] ++ ev ++ [RenderNodes], newState)
  else
    let newState := STATE_OUTSIDE_OUTER_LOCALITY in
    let '(this, ev) := changeIfNew newState origState this in
    (this, [TestOuterRadius box] ++ ev, newState).

(** One evaluation frame.  [newState] is the final value of the local
    variable of that name; it is unassigned when [_init] throws. *)
Record Frame : Type := mkFrame {
  after : BoundingBox;
  trace : list Call;
  completion : Completion;
  newState : option Z
}.

Definition _render (sv : Services) (this : BoundingBox) : Frame :=
  let origLevel := _level this in
  let origState := _state this in
  let r := refresh sv this in
  match r_completion r with
  | Throw e => mkFrame (r_this r) (r_trace r) (Throw e) None
  | Normal =>
      let '(this, tr, newState) := cascade sv origLevel origState (r_this r) in
      mkFrame this (r_trace r ++ tr) Normal (Some newState)
  end.

(** Consecutive frames of one node, oldest first. *)
Fixpoint run (this : BoundingBox) (frames : list Services) : list Frame :=
  match frames with
  | [] => []
  | sv :: rest => let f := _render sv this in f :: run (after f) rest
  end.

(** ** Observations on a frame's trace *)

Definition isRender (c : Call) : bool :=
  match c with RenderNode _ | RenderNodes => true | _ => false end.

Definition isTestOuter (c : Call) : bool :=
  match c with TestOuterRadius _ => true | _ => false end.

Definition isTestInner (c : Call) : bool :=
  match c with TestInnerRadius _ => true | _ => false end.

Definition isTestFrustum (c : Call) : bool :=
  match c with TestFrustum _ => true | _ => false end.

Definition isGetProjectedSize (c : Call) : bool :=
  match c with GetProjectedSize _ => true | _ => false end.

Definition isEvent (name : string) (c : Call) : bool :=
  match c with FireEvent n _ => String.eqb n name | _ => false end.

Definition calls (p : Call -> bool) (tr : list Call) : nat :=
  List.length (filter p tr).

(** The child-traversal requests of a frame, in order. *)
Definition renders (tr : list Call) : list Call := filter isRender tr.

(** The payloads delivered under an event name, in order. *)
Definition fired (name : string) (tr : list Call) : list EventParams :=
  flat_map (fun c => match c with
                     | FireEvent n p => if String.eqb n name then [p] else []
                     | _ => []
                     end) tr.

(** Modelled from the spec: [_renderNode] and [_renderNodes] belong to
    [SceneJS.Node], outside the source file.  [_renderNode(i)] visits the
    child at index [i] (none when there is no such child), [_renderNodes()]
    visits every child in order. *)
Definition visitedBy (children : list nat) (c : Call) : list nat :=
  match c with
  | RenderNode i => match nth_error children i with Some ch => [ch] | None => [] end
  | RenderNodes => children
  | _ => []
  end.

Definition visited (children : list nat) (tr : list Call) : list nat :=
  flat_map (visitedBy children) tr.

(** ** Concrete collaborators and nodes used in examples *)

Definition pointMin (p q : Point) : Point :=
  let '(a, b, c) := p in let '(d, e, f) := q in (Z.min a d, Z.min b e, Z.min c f).

Definition pointMax (p q : Point) : Point :=
  let '(a, b, c) := p in let '(d, e, f) := q in (Z.max a d, Z.max b e, Z.max c f).

(** Axis-aligned bounds of a point set, standing in for [Box3.fromPoints]. *)
Definition boundsOf (ps : list Point) : Box3 :=
  match ps with
  | [] => mkBox3 (0, 0, 0) (0, 0, 0)
  | p :: rest => mkBox3 (fold_left pointMin rest p) (fold_left pointMax rest p)
  end.

(** A translation by [(dx, dy, dz)], standing in for [transformPoints3]. *)
Definition translatePoints (m : Matrix) (ps : option (list Point)) : list Point :=
  match ps with
  | Some l => map (fun '(x, y, z) => (x + nth 0 m 0, y + nth 1 m 0, z + nth 2 m 0)) l
  | None => []
  end.

(** Services of a frame in which the model transform is a non-identity,
    non-fixed translation and the tests answer as given. *)
Definition frameOf (p : Params) (outer inner : bool) (fr : FrustumResult) (size : Z)
  : Services :=
  mkServices p (mkTransform false false [1; 0; 0]) false
    translatePoints boundsOf
    (fun _ => outer) (fun _ => inner) (fun _ => fr) (fun _ => size).

Definition noListeners : string -> bool := fun _ => false.

Definition allListeners : string -> bool :=
  fun name => String.eqb name "state-changed" || String.eqb name "lod-selected".

Definition cube (lv : option (list Num)) : Params :=
  mkParams (Some (-2)) (Some (-2)) (Some (-2)) (Some 2) (Some 2) (Some 2) lv.

Definition lodLevels : list Num := map Fin [10; 200; 400; 600].

(** A statically configured level-of-detail node with one child per
    threshold, as in Example 1 of the source's documentation. *)
Definition lodNode : BoundingBox :=
  fst (construct (cube (Some lodLevels)) [100; 101; 102; 103]%nat allListeners).

(** ** Specification-side notions *)

(** [i] is the highest index whose threshold does not exceed [s]. *)
Definition HighestAtMost (lv : list Num) (s : Z) (i : nat) : Prop :=
  (exists t, nth_error lv i = Some (Fin t) /\ t <= s) /\
  (forall j t, (i < j)%nat -> nth_error lv j = Some (Fin t) -> s < t).

(** [a < b] on thresholds: it does not hold when a side is NaN. *)
Definition ltNum (a b : Num) : Prop :=
  match a, b with
  | Fin x, Fin y => x < y
  | _, _ => False
  end.

(** Strictly ascending, hence without duplicates. *)
Definition StrictlyAscending (lv : list Num) : Prop :=
  forall i j a b, (i < j)%nat ->
    nth_error lv i = Some a -> nth_error lv j = Some b -> ltNum a b.

(** No entry of the table is NaN. *)
Definition NaNFree (lv : list Num) : Prop := ~ In NaN lv.

(** Some entry is greater than or equal to its successor: the comparison
    that the loop of [_init] throws on. *)
Definition AdjacentDescent (lv : list Num) : Prop :=
  exists i a b, nth_error lv i = Some (Fin a) /\
                nth_error lv (S i) = Some (Fin b) /\ a >= b.

(** The view-space box that the tests of a frame are applied to. *)
Definition viewBoxOf (sv : Services) (this : BoundingBox) : option Box3 :=
  _viewBox (r_this (refresh sv this)).

(** The threshold table that is in force during the frame. *)
Definition levelsOf (sv : Services) (this : BoundingBox) : option (list Num) :=
  _levels (r_this (refresh sv this)).

(** The frame gets past its (re)configuration. *)
Definition configures (sv : Services) (this : BoundingBox) : Prop :=
  r_completion (refresh sv this) = Normal.

Definition outerPasses (sv : Services) (this : BoundingBox) : bool :=
  testAxisBoxIntersectOuterRadius sv (viewBoxOf sv this).

Definition innerPasses (sv : Services) (this : BoundingBox) : bool :=
  testAxisBoxIntersectInnerRadius sv (viewBoxOf sv this).

Definition frustumResult (sv : Services) (this : BoundingBox) : FrustumResult :=
  testAxisBoxIntersection sv (viewBoxOf sv this).

Definition projectedSize (sv : Services) (this : BoundingBox) : Z :=
  getProjectedSize sv (viewBoxOf sv this).

(** The frame reaches the frustum stage with a positive answer. *)
Definition reachesFrustum (sv : Services) (this : BoundingBox) : Prop :=
  configures sv this /\ outerPasses sv this = true /\ innerPasses sv this = true /\
  frustumResult sv this <> _math_OUTSIDE_FRUSTUM.

(** The index at which [lodLoop] returns when entered with [k], if any. *)
Fixpoint selectLevel (lv : list Num) (size : Z) (k : nat) : option nat :=
  match k with
  | O => None
  | S i => if levelAtMost lv i size then Some i else selectLevel lv size i
  end.

(** ** Derived notions used in the statements *)

(** The node that [changeIfNew] leaves. *)
Definition settled (ns os : Z) (this : BoundingBox) : BoundingBox :=
  if ns =? os then this else set_state ns this.

(** The calls that [changeIfNew] makes: the event, if the state is new
    and a listener is registered. *)
Definition announced (ns os : Z) (this : BoundingBox) : list Call :=
  if negb (ns =? os) && _listeners this "state-changed"
  then [FireEvent "state-changed" (StateParams ns ns)] else [].

(** What the body of the loop does once index [i] is found. *)
Definition selected (origLevel : Z) (i : nat) (this : BoundingBox)
  : BoundingBox * list Call :=
  (set_level (Z.of_nat i) this,
   (if negb (origLevel =? Z.of_nat i) && _listeners this "lod-selected"
    then [FireEvent "lod-selected" (LevelParams origLevel (Z.of_nat i))] else [])
   ++ [if (0 <? List.length (_children this))%nat then RenderNode i else RenderNodes]).

(** The calls to the parameter, transform and instancing providers. *)
Definition isSetup (c : Call) : bool :=
  match c with GetParams | GetTransform | Instancing => true | _ => false end.

(** The level a frame selects in the sense of the specification: the
    highest index whose threshold is at most the projected size, and [-1]
    when there is none. *)
Definition selectedIndex (sv : Services) (this : BoundingBox) : Z :=
  match levelsOf sv this with
  | Some lv =>
      match selectLevel lv (projectedSize sv this) (List.length lv) with
      | Some i => Z.of_nat i
      | None => -1
      end
  | None => -1
  end.

(** ** Concrete frames and nodes *)

(** A frame in which both radius tests pass and the box is inside the
    frustum, at the given projected size. *)
Definition nearFrame (size : Z) : Services :=
  frameOf (cube None) true true _math_INSIDE_FRUSTUM size.

(** A frame in which the outer-radius test fails. *)
Definition farFrame : Services :=
  frameOf (cube None) false false _math_OUTSIDE_FRUSTUM 0.

(** A frame in which both radius tests pass and the box is outside the
    frustum. *)
Definition culledFrame : Services :=
  frameOf (cube None) true true _math_OUTSIDE_FRUSTUM 0.

(** A frame in which the outer-radius test passes and the inner one fails. *)
Definition stagingFrame : Services :=
  frameOf (cube None) true false _math_INSIDE_FRUSTUM 0.

(** A frame as [nearFrame] whose parameter provider answers [p]. *)
Definition configuringFrame (p : Params) (size : Z) : Services :=
  frameOf p true true _math_INSIDE_FRUSTUM size.

(** A configuration with two thresholds. *)
Definition shortTable : Params :=
  mkParams (Some (-5)) (Some (-5)) (Some (-5)) (Some 5) (Some 5) (Some 5)
           (Some [Fin 10; Fin 200]).

(** A freshly constructed, dynamically configured node without children. *)
Definition dynamicNode : BoundingBox := fresh false [] allListeners.

(** A freshly constructed, dynamically configured node with four children. *)
Definition dynamicLodNode : BoundingBox :=
  fresh false [100; 101; 102; 103]%nat allListeners.


(** ** Getters, operation sequences and invariants *)

(** The six getters (lines 164-286) return the stored extent. *)
Definition getXMin (this : BoundingBox) : Z := _xmin this.
Definition getYMin (this : BoundingBox) : Z := _ymin this.
Definition getZMin (this : BoundingBox) : Z := _zmin this.
Definition getXMax (this : BoundingBox) : Z := _xmax this.
Definition getYMax (this : BoundingBox) : Z := _ymax this.
Definition getZMax (this : BoundingBox) : Z := _zmax this.

(** What a client can do to a constructed node: call a setter, or have the
    traversal render it for one frame.  A frame that throws leaves the node
    as mutated up to the throw. *)
Inductive Op : Type :=
| OpSetXMin (v : Z) | OpSetYMin (v : Z) | OpSetZMin (v : Z)
| OpSetXMax (v : Z) | OpSetYMax (v : Z) | OpSetZMax (v : Z)
| OpSetBoundary (boundary : Params)
| OpRender (sv : Services).

Definition step (this : BoundingBox) (op : Op) : BoundingBox :=
  match op with
  | OpSetXMin v => setXMin v this
  | OpSetYMin v => setYMin v this
  | OpSetZMin v => setZMin v this
  | OpSetXMax v => setXMax v this
  | OpSetYMax v => setYMax v this
  | OpSetZMax v => setZMax v this
  | OpSetBoundary b => setBoundary b this
  | OpRender sv => after (_render sv this)
  end.

Definition steps (this : BoundingBox) (ops : list Op) : BoundingBox :=
  fold_left step ops this.

(** A node as a constructor call leaves it: dynamically configured and not
    yet initialised, or statically configured with [_init] completed. *)
Definition Constructed (this : BoundingBox) : Prop :=
  (exists children listeners, this = fresh false children listeners) \/
  (exists params children listeners,
     construct params children listeners = (this, Normal)).

(** The threshold table, if any, has one entry per child and passed the
    comparisons of [_init]: no entry is greater than or equal to its
    successor. *)
Definition TableValid (this : BoundingBox) : Prop :=
  forall lv, _levels this = Some lv ->
    List.length lv = List.length (_children this) /\ ~ AdjacentDescent lv.

(** The cached geometry agrees with the memo level. *)
Definition CacheValid (this : BoundingBox) : Prop :=
  0 <= _memoLevel this <= 2 /\
  (_memoLevel this <> 0 -> _viewBox this <> None) /\
  (_memoLevel this = 1 -> _objectCoords this = Some (objectCorners this)).

Definition WellFormed (this : BoundingBox) : Prop :=
  TableValid this /\ CacheValid this /\
  -1 <= _level this < Z.of_nat (List.length (_children this)) /\
  0 <= _state this <= 4.

(** The box of the extents, cached under an identity transform. *)
Definition extentBox (this : BoundingBox) : option Box3 :=
  Some (mkBox3 (_xmin this, _ymin this, _zmin this)
               (_xmax this, _ymax this, _zmax this)).

(** The bounds of the transformed corner points, cached otherwise. *)
Definition transformedBox (sv : Services) (coords : option (list Point))
  : option Box3 :=
  Some (_math_Box3_fromPoints sv
          (_math_transformPoints3 sv (matrix (getTransform sv)) coords)).

Definition isGetParams (c : Call) : bool :=
  match c with GetParams => true | _ => false end.

Definition isGetTransform (c : Call) : bool :=
  match c with GetTransform => true | _ => false end.

Definition isInstancing (c : Call) : bool :=
  match c with Instancing => true | _ => false end.

(** The calls that hand the view-space box to a collaborator. *)
Definition isProbe (c : Call) : bool :=
  match c with
  | TestOuterRadius _ | TestInnerRadius _ | TestFrustum _ | GetProjectedSize _ => true
  | _ => false
  end.

Definition isFireEvent (c : Call) : bool :=
  match c with FireEvent _ _ => true | _ => false end.

(** Two nodes agree on everything but the classification state and the
    selected level. *)
Definition sameConfiguration (a b : BoundingBox) : Prop :=
  (_xmin a, _ymin a, _zmin a, _xmax a, _ymax a, _zmax a) =
  (_xmin b, _ymin b, _zmin b, _xmax b, _ymax b, _zmax b) /\
  _levels a = _levels b /\ _objectCoords a = _objectCoords b /\
  _viewBox a = _viewBox b /\ _memoLevel a = _memoLevel b /\
  _fixedParams a = _fixedParams b /\ _children a = _children b /\
  _listeners a = _listeners b.

(** ** Further concrete frames *)

(** Services of a frame with the given model transform and instancing flag;
    the radius tests pass and the box is inside the frustum. *)
Definition frameUnder (p : Params) (t : ModelTransform) (inst : bool) (size : Z)
  : Services :=
  mkServices p t inst translatePoints boundsOf
    (fun _ => true) (fun _ => true) (fun _ => _math_INSIDE_FRUSTUM) (fun _ => size).

Definition identityTransform : ModelTransform := mkTransform true true [].

Definition fixedTranslation : ModelTransform := mkTransform false true [1; 0; 0].

(** The level-of-detail node after one frame under the identity transform. *)
Definition cachedNode : BoundingBox :=
  after (_render (frameUnder (cube None) identityTransform false 250) lodNode).

(** The state that the cascade computes from the answers of the three
    tests (the final value of [newState] in [cascade]). *)
Definition classify (outer inner : bool) (fr : FrustumResult) : Z :=
  if outer then
    if inner then
      match fr with
      | _math_OUTSIDE_FRUSTUM => STATE_INTERSECTING_INNER_LOCALITY
      | _ => STATE_INTERSECTING_FRUSTUM
      end
    else STATE_INTERSECTING_OUTER_LOCALITY
  else STATE_OUTSIDE_OUTER_LOCALITY.

(** The four calls that hand box [b] to a collaborator, in source order. *)
Definition probeSequence (b : option Box3) : list Call :=
  [TestOuterRadius b; TestInnerRadius b; TestFrustum b; GetProjectedSize b].

(** What no setter touches. *)
Definition sameBesidesExtents (a b : BoundingBox) : Prop :=
  _levels a = _levels b /\ _level a = _level b /\ _state a = _state b /\
  _objectCoords a = _objectCoords b /\ _viewBox a = _viewBox b /\
  _fixedParams a = _fixedParams b /\ _children a = _children b /\
  _listeners a = _listeners b.

Definition isSetter (op : Op) : bool :=
  match op with OpRender _ => false | _ => true end.

(** * Properties *)

(** ** [_changeState] and [_init] *)

Lemma changeIfNew_eq (ns os : Z) (this : BoundingBox) :
  changeIfNew ns os this = (settled ns os this, announced ns os this).
Proof.
  unfold changeIfNew, _changeState, settled, announced.
  destruct (ns =? os); cbn; [reflexivity|].
  destruct (_listeners this "state-changed"); reflexivity.
Qed.

Lemma settled_frame (ns os : Z) (this : BoundingBox) :
  _levels (settled ns os this) = _levels this /\
  _level (settled ns os this) = _level this /\
  _children (settled ns os this) = _children this /\
  _listeners (settled ns os this) = _listeners this /\
  _viewBox (settled ns os this) = _viewBox this /\
  _state (settled ns os this) = (if ns =? os then _state this else ns).
Proof.
  unfold settled. destruct (ns =? os); cbn; repeat split.
Qed.

Lemma ltNum_trans (a b c : Num) : ltNum a b -> ltNum b c -> ltNum a c.
Proof.
  destruct a, b, c; cbn; try contradiction. lia.
Qed.

Lemma geNum_true (a b : Num) :
  geNum a b = true <-> exists x y, a = Fin x /\ b = Fin y /\ x >= y.
Proof.
  destruct a as [|x], b as [|y]; cbn;
    try (split; [discriminate|intros [x' [y' [H1 [H2 _]]]]; discriminate]).
  rewrite Z.geb_le. split.
  - intros H. exists x, y. repeat split; lia.
  - intros [x' [y' [H1 [H2 H]]]]. injection H1 as <-. injection H2 as <-. lia.
Qed.

(** The loop of [_init] throws exactly when some entry is greater than
    or equal to its successor. *)
Lemma descends_true_iff (lv : list Num) :
  descends lv = true <-> AdjacentDescent lv.
Proof.
  unfold AdjacentDescent. induction lv as [|a [|b rest] IH]; cbn [descends].
  - split; [discriminate|]. intros [i [x [y [H _]]]]. destruct i; discriminate.
  - split; [discriminate|]. intros [i [x [y [_ [H _]]]]].
    destruct i; discriminate.
  - destruct (geNum a b) eqn:Hg.
    + split; [|reflexivity]. intros _.
      apply geNum_true in Hg. destruct Hg as [x [y [-> [-> H]]]].
      exists O, x, y. repeat split. exact H.
    + rewrite IH. split.
      * intros [i [x [y [H1 [H2 H]]]]]. exists (S i), x, y. auto.
      * intros [i [x [y [H1 [H2 H]]]]]. destruct i as [|i].
        -- cbn in H1, H2. injection H1 as ->. injection H2 as ->.
           assert (geNum (Fin x) (Fin y) = true)
             by (apply geNum_true; exists x, y; auto).
           congruence.
        -- exists i, x, y. auto.
Qed.

Lemma sorted_descends (lv : list Num) :
  Sorted.Sorted ltNum lv -> descends lv = false.
Proof.
  induction lv as [|a [|b rest] IH]; cbn [descends]; try reflexivity.
  intros H. inversion H as [|? ? Hs Hd]; subst.
  inversion Hd as [|? ? Hab]; subst.
  destruct a as [|x], b as [|y]; cbn in Hab; try contradiction.
  cbn. destruct (Z.geb_spec x y); [lia|]. apply IH. exact Hs.
Qed.

Lemma descends_sorted (lv : list Num) :
  NaNFree lv -> descends lv = false -> Sorted.Sorted ltNum lv.
Proof.
  unfold NaNFree. induction lv as [|a [|b rest] IH]; cbn [descends]; intros Hn H.
  - constructor.
  - constructor; constructor.
  - destruct a as [|x]; [exfalso; apply Hn; left; reflexivity|].
    destruct b as [|y]; [exfalso; apply Hn; right; left; reflexivity|].
    cbn in H. destruct (Z.geb_spec x y) as [Hge|Hlt]; [discriminate|].
    constructor.
    + apply IH; [|exact H]. intros Hin. apply Hn. right. exact Hin.
    + constructor. exact Hlt.
Qed.

Lemma strongly_sorted_ascending (lv : list Num) :
  Sorted.StronglySorted ltNum lv <-> StrictlyAscending lv.
Proof.
  unfold StrictlyAscending. induction lv as [|a rest IH].
  - split; [|constructor].
    intros _ i j x y _ Hi. destruct i; discriminate.
  - split.
    + intros H i j x y Hij Hi Hj.
      inversion H as [|? ? Hs Hall]; subst.
      destruct j as [|j]; [lia|]. cbn in Hj.
      destruct i as [|i].
      * cbn in Hi. injection Hi as <-.
        rewrite Forall_forall in Hall. apply Hall.
        eapply nth_error_In; eassumption.
      * cbn in Hi. apply (proj1 IH Hs i j); [lia|assumption|assumption].
    + intros H. constructor.
      * apply (proj2 IH). intros i j x y Hij Hi Hj.
        apply (H (S i) (S j)); [lia|assumption|assumption].
      * rewrite Forall_forall. intros y Hy.
        apply In_nth_error in Hy. destruct Hy as [n Hn].
        apply (H O (S n)); [lia|reflexivity|assumption].
Qed.

(** A strictly ascending table passes the loop of [_init]; a table
    without NaN passes it only if it is strictly ascending. *)
Lemma ascending_descends (lv : list Num) :
  StrictlyAscending lv -> descends lv = false.
Proof.
  intros H. apply sorted_descends, Sorted.StronglySorted_Sorted,
    strongly_sorted_ascending, H.
Qed.

Lemma descends_false_iff (lv : list Num) :
  NaNFree lv -> (descends lv = false <-> StrictlyAscending lv).
Proof.
  intros Hn. split; [|apply ascending_descends].
  intros H. apply strongly_sorted_ascending, Sorted.Sorted_StronglySorted.
  - intros x y z. apply ltNum_trans.
  - apply descends_sorted; assumption.
Qed.

Lemma not_ascending_descent (lv : list Num) :
  NaNFree lv -> ~ StrictlyAscending lv -> AdjacentDescent lv.
Proof.
  intros Hn Hna. apply descends_true_iff.
  destruct (descends lv) eqn:E; [reflexivity|].
  exfalso. apply Hna. apply (descends_false_iff lv Hn). exact E.
Qed.

Lemma descent_not_ascending (lv : list Num) :
  AdjacentDescent lv -> ~ StrictlyAscending lv.
Proof.
  intros Hd Ha. apply descends_true_iff in Hd.
  rewrite (ascending_descends lv Ha) in Hd. discriminate.
Qed.

(** What [_init] leaves alone, whatever its completion. *)
Lemma init_frame (params : Params) (this : BoundingBox) :
  let this' := fst (_init params this) in
  _level this' = _level this /\ _state this' = _state this /\
  _objectCoords this' = _objectCoords this /\ _viewBox this' = _viewBox this /\
  _memoLevel this' = _memoLevel this /\ _fixedParams this' = _fixedParams this /\
  _children this' = _children this /\ _listeners this' = _listeners this /\
  _xmin this' = orZero (xmin params) /\ _ymin this' = orZero (ymin params) /\
  _zmin this' = orZero (zmin params) /\ _xmax this' = orZero (xmax params) /\
  _ymax this' = orZero (ymax params) /\ _zmax this' = orZero (zmax params).
Proof.
  unfold _init. destruct (levels params) as [lv|]; cbn.
  - destruct (Nat.eqb _ _); cbn.
    + destruct (descends lv); cbn; repeat split.
    + repeat split.
  - repeat split.
Qed.

(** The completion of [_init], and the threshold table it leaves. *)
Lemma init_outcome (params : Params) (this : BoundingBox) :
  match levels params with
  | None => snd (_init params this) = Normal /\
            _levels (fst (_init params this)) = _levels this
  | Some lv =>
      if negb (Nat.eqb (List.length lv) (List.length (_children this)))
      then snd (_init params this) = Throw LevelsValueForEachChild /\
           _levels (fst (_init params this)) = _levels this
      else if descends lv
      then snd (_init params this) = Throw LevelsAscendingUnique /\
           _levels (fst (_init params this)) = _levels this
      else snd (_init params this) = Normal /\
           _levels (fst (_init params this)) = Some lv
  end.
Proof.
  unfold _init. destruct (levels params) as [lv|]; cbn; [|auto].
  destruct (Nat.eqb _ _); cbn; [|auto].
  destruct (descends lv); cbn; auto.
Qed.

(** ** The refresh phase *)

Ltac split_ifs :=
  repeat match goal with
         | |- context [if ?b then _ else _] => destruct b; cbn
         end.

Ltac open_refresh sv this :=
  unfold refresh, refreshDirty, refreshView; cbn;
  destruct (_memoLevel this =? 0) eqn:Hmemo; cbn;
  [ destruct (_fixedParams this) eqn:Hfixed; cbn;
    [ | pose proof (init_frame (getParams sv) (set_state STATE_INITIAL this)) as Hinit;
        pose proof (init_outcome (getParams sv) (set_state STATE_INITIAL this)) as Hout;
        destruct (_init (getParams sv) (set_state STATE_INITIAL this)) as [t0 c0];
        cbn in Hinit, Hout; destruct c0; cbn ]
  | ].

(** What the refresh phase leaves alone, and what it does to the state. *)
Lemma refresh_frame (sv : Services) (this : BoundingBox) :
  let r := refresh sv this in
  _level (r_this r) = _level this /\
  _children (r_this r) = _children this /\
  _listeners (r_this r) = _listeners this /\
  _fixedParams (r_this r) = _fixedParams this /\
  _state (r_this r) = (if _memoLevel this =? 0 then STATE_INITIAL else _state this).
Proof.
  open_refresh sv this; split_ifs; cbn; intuition congruence.
Qed.

Lemma refresh_trace_setup (sv : Services) (this : BoundingBox) :
  forallb isSetup (r_trace (refresh sv this)) = true.
Proof.
  open_refresh sv this; split_ifs; reflexivity.
Qed.

Lemma filter_setup (p : Call -> bool) (tr : list Call) :
  (forall c, isSetup c = true -> p c = false) ->
  forallb isSetup tr = true -> filter p tr = [].
Proof.
  intros Hp. induction tr as [|c tr IH]; cbn; [reflexivity|].
  intros H. apply andb_true_iff in H as [Hc Htr].
  rewrite (Hp c Hc). auto.
Qed.

Lemma fired_setup (name : string) (tr : list Call) :
  forallb isSetup tr = true -> fired name tr = [].
Proof.
  induction tr as [|c tr IH]; cbn; [reflexivity|].
  intros H. apply andb_true_iff in H as [Hc Htr].
  destruct c; try discriminate; cbn; auto.
Qed.

Lemma visited_setup (children : list nat) (tr : list Call) :
  forallb isSetup tr = true -> visited children tr = [].
Proof.
  induction tr as [|c tr IH]; cbn; [reflexivity|].
  intros H. apply andb_true_iff in H as [Hc Htr].
  destruct c; try discriminate; cbn; auto.
Qed.

(** A failed reconfiguration happens on a dirty, dynamically configured
    node; it leaves the threshold table alone and has only asked for the
    parameters. *)
Lemma refresh_throw (sv : Services) (this : BoundingBox) (e : ConfigError) :
  r_completion (refresh sv this) = Throw e ->
  _memoLevel this = 0 /\ _fixedParams this = false /\
  snd (_init (getParams sv) (set_state STATE_INITIAL this)) = Throw e /\
  r_this (refresh sv this) = fst (_init (getParams sv) (set_state STATE_INITIAL this)) /\
  r_trace (refresh sv this) = [GetParams].
Proof.
  unfold refresh, refreshDirty, refreshView; cbn.
  destruct (_memoLevel this =? 0) eqn:Hmemo; cbn.
  - apply Z.eqb_eq in Hmemo. destruct (_fixedParams this) eqn:Hfixed; cbn.
    + split_ifs; discriminate.
    + destruct (_init (getParams sv) (set_state STATE_INITIAL this)) as [t0 c0]; cbn.
      destruct c0; cbn.
      * split_ifs; discriminate.
      * intros H. injection H as ->. auto.
  - split_ifs; discriminate.
Qed.

Lemma refresh_normal (sv : Services) (this : BoundingBox) :
  r_completion (refresh sv this) = Normal ->
  _memoLevel this = 0 -> _fixedParams this = false ->
  snd (_init (getParams sv) (set_state STATE_INITIAL this)) = Normal /\
  _levels (r_this (refresh sv this)) =
  _levels (fst (_init (getParams sv) (set_state STATE_INITIAL this))).
Proof.
  intros Hc Hm Hf. revert Hc.
  unfold refresh, refreshDirty, refreshView; cbn.
  rewrite Hm, Hf; cbn.
  destruct (_init (getParams sv) (set_state STATE_INITIAL this)) as [t0 c0]; cbn.
  destruct c0; cbn; [|discriminate].
  intros _. split; [reflexivity|]. split_ifs; reflexivity.
Qed.

(** Without a reconfiguration the threshold table is the stored one. *)
Lemma refresh_levels_static (sv : Services) (this : BoundingBox) :
  _memoLevel this <> 0 \/ _fixedParams this = true ->
  r_completion (refresh sv this) = Normal /\
  _levels (r_this (refresh sv this)) = _levels this.
Proof.
  intros H. unfold refresh, refreshDirty, refreshView; cbn.
  destruct (_memoLevel this =? 0) eqn:Hmemo; cbn.
  - apply Z.eqb_eq in Hmemo. destruct H as [H|H]; [contradiction|].
    rewrite H; cbn. split_ifs; auto.
  - split_ifs; auto.
Qed.

(** ** The selection loop *)

Lemma levelAtMost_true (lv : list Num) (i : nat) (s : Z) :
  levelAtMost lv i s = true <-> exists t, nth_error lv i = Some (Fin t) /\ t <= s.
Proof.
  unfold levelAtMost. destruct (nth_error lv i) as [[|t]|]; cbn.
  - split; [discriminate|]. intros [t [E _]]. discriminate.
  - rewrite Z.leb_le. split.
    + intros H. exists t. auto.
    + intros [t' [E H]]. injection E as <-. exact H.
  - split; [discriminate|]. intros [t [E _]]. discriminate.
Qed.

Lemma levelAtMost_false (lv : list Num) (i : nat) (s : Z) :
  levelAtMost lv i s = false <-> forall t, nth_error lv i = Some (Fin t) -> s < t.
Proof.
  unfold levelAtMost. destruct (nth_error lv i) as [[|t]|]; cbn.
  - split; [|reflexivity]. intros _ t E. discriminate.
  - rewrite Z.leb_gt. split.
    + intros H t' E. injection E as <-. exact H.
    + intros H. apply H. reflexivity.
  - split; [|reflexivity]. intros _ t E. discriminate.
Qed.

Lemma selectLevel_Some (lv : list Num) (s : Z) (k i : nat) :
  selectLevel lv s k = Some i <->
  (i < k)%nat /\ levelAtMost lv i s = true /\
  forall j, (i < j < k)%nat -> levelAtMost lv j s = false.
Proof.
  induction k as [|k IH]; cbn.
  - split; [discriminate|]. intros [H _]. lia.
  - destruct (levelAtMost lv k s) eqn:E.
    + split.
      * intros H. injection H as <-. repeat split; [lia|exact E|]. intros j Hj. lia.
      * intros [Hik [Hi Hj]].
        destruct (Nat.eq_dec i k) as [->|Hne]; [reflexivity|].
        rewrite (Hj k) in E; [discriminate|lia].
    + rewrite IH. split.
      * intros [Hik [Hi Hj]]. repeat split; [lia|exact Hi|].
        intros j Hjk. destruct (Nat.eq_dec j k) as [->|Hne]; [exact E|].
        apply Hj. lia.
      * intros [Hik [Hi Hj]].
        assert (i <> k) by (intros ->; congruence).
        repeat split; [lia|exact Hi|]. intros j Hjk. apply Hj. lia.
Qed.

Lemma selectLevel_None (lv : list Num) (s : Z) (k : nat) :
  selectLevel lv s k = None <-> forall j, (j < k)%nat -> levelAtMost lv j s = false.
Proof.
  induction k as [|k IH]; cbn.
  - split; [|reflexivity]. intros _ j Hj. lia.
  - destruct (levelAtMost lv k s) eqn:E.
    + split; [discriminate|]. intros H. rewrite (H k) in E; [discriminate|lia].
    + rewrite IH. split.
      * intros H j Hj. destruct (Nat.eq_dec j k) as [->|Hne]; [exact E|].
        apply H. lia.
      * intros H j Hj. apply H. lia.
Qed.

(** The loop returns at the highest index whose threshold is at most the
    size. *)
Lemma select_highest (lv : list Num) (s : Z) (i : nat) :
  selectLevel lv s (List.length lv) = Some i <-> HighestAtMost lv s i.
Proof.
  rewrite selectLevel_Some. unfold HighestAtMost. rewrite levelAtMost_true. split.
  - intros [Hi [Ht Hj]]. split; [exact Ht|].
    intros j t Hij Hn. apply (proj1 (levelAtMost_false lv j s)); [|exact Hn].
    apply Hj. split; [exact Hij|]. apply nth_error_Some. congruence.
  - intros [[t [Hn Ht]] Hj]. repeat split.
    + apply nth_error_Some. congruence.
    + exists t. auto.
    + intros j Hjk. apply levelAtMost_false. intros t' Hn'.
      apply (Hj j t'); [lia|exact Hn'].
Qed.

(** The loop falls through exactly when every threshold exceeds the size. *)
Lemma select_none (lv : list Num) (s : Z) :
  selectLevel lv s (List.length lv) = None <-> forall t, In (Fin t) lv -> s < t.
Proof.
  rewrite selectLevel_None. split.
  - intros H t Hin. apply In_nth_error in Hin. destruct Hin as [j Hj].
    apply (proj1 (levelAtMost_false lv j s)); [|exact Hj].
    apply H. apply nth_error_Some. congruence.
  - intros H j _. apply levelAtMost_false. intros t Hn. apply H.
    eapply nth_error_In; eassumption.
Qed.

Lemma highest_unique (lv : list Num) (s : Z) (i j : nat) :
  HighestAtMost lv s i -> HighestAtMost lv s j -> i = j.
Proof.
  intros Hi Hj. apply select_highest in Hi, Hj. congruence.
Qed.

Lemma highest_or_none (lv : list Num) (s : Z) :
  (exists i, HighestAtMost lv s i) \/ (forall t, In (Fin t) lv -> s < t).
Proof.
  destruct (selectLevel lv s (List.length lv)) as [i|] eqn:E.
  - left. exists i. apply select_highest. exact E.
  - right. apply select_none. exact E.
Qed.

Lemma lodLoop_eq (origLevel s : Z) (lv : list Num) (k : nat) (this : BoundingBox) :
  lodLoop origLevel s lv k this =
  match selectLevel lv s k with
  | Some i => selected origLevel i this
  | None => (this, [])
  end.
Proof.
  induction k as [|k IH]; cbn; [reflexivity|].
  destruct (levelAtMost lv k s); [|exact IH].
  unfold selected. cbn.
  destruct (origLevel =? Z.of_nat k); cbn;
    [|destruct (_listeners this "lod-selected"); cbn];
    destruct (List.length (_children this)); reflexivity.
Qed.

(** ** The frame, case by case *)

Section Cases.

Variable sv : Services.
Variable this : BoundingBox.

Let r := refresh sv this.
Let box := viewBoxOf sv this.
Let os := _state this.

Lemma render_throw (e : ConfigError) :
  r_completion r = Throw e ->
  _render sv this = mkFrame (r_this r) (r_trace r) (Throw e) None.
Proof.
  unfold _render. fold r. intros ->. reflexivity.
Qed.

Lemma render_outside_outer :
  configures sv this -> outerPasses sv this = false ->
  _render sv this =
  mkFrame (settled STATE_OUTSIDE_OUTER_LOCALITY os (r_this r))
          (r_trace r ++ [TestOuterRadius box]
             ++ announced STATE_OUTSIDE_OUTER_LOCALITY os (r_this r))
          Normal (Some STATE_OUTSIDE_OUTER_LOCALITY).
Proof.
  unfold configures, outerPasses, viewBoxOf, _render, cascade. fold r.
  intros -> ->. rewrite changeIfNew_eq. reflexivity.
Qed.

Lemma render_intersect_outer :
  configures sv this -> outerPasses sv this = true -> innerPasses sv this = false ->
  _render sv this =
  mkFrame (settled STATE_INTERSECTING_OUTER_LOCALITY os (r_this r))
          (r_trace r ++ [TestOuterRadius box; TestInnerRadius box]
             ++ announced STATE_INTERSECTING_OUTER_LOCALITY os (r_this r)
             ++ [RenderNodes])
          Normal (Some STATE_INTERSECTING_OUTER_LOCALITY).
Proof.
  unfold configures, outerPasses, innerPasses, viewBoxOf, _render, cascade. fold r.
  intros -> -> ->. rewrite changeIfNew_eq. reflexivity.
Qed.

Lemma render_outside_frustum :
  configures sv this -> outerPasses sv this = true -> innerPasses sv this = true ->
  frustumResult sv this = _math_OUTSIDE_FRUSTUM ->
  _render sv this =
  mkFrame (settled STATE_INTERSECTING_INNER_LOCALITY os (r_this r))
          (r_trace r ++ [TestOuterRadius box; TestInnerRadius box; TestFrustum box]
             ++ announced STATE_INTERSECTING_INNER_LOCALITY os (r_this r))
          Normal (Some STATE_INTERSECTING_INNER_LOCALITY).
Proof.
  unfold configures, outerPasses, innerPasses, frustumResult, viewBoxOf,
    _render, cascade. fold r.
  intros -> -> -> ->. rewrite changeIfNew_eq. reflexivity.
Qed.

Lemma render_frustum :
  reachesFrustum sv this ->
  let this4 := settled STATE_INTERSECTING_FRUSTUM os (r_this r) in
  let head := r_trace r
                ++ ([TestOuterRadius box; TestInnerRadius box; TestFrustum box]
                      ++ announced STATE_INTERSECTING_FRUSTUM os (r_this r)) in
  _render sv this =
  match levelsOf sv this with
  | None => mkFrame this4 (head ++ [RenderNodes])
                    Normal (Some STATE_INTERSECTING_FRUSTUM)
  | Some lv =>
      match selectLevel lv (projectedSize sv this) (List.length lv) with
      | Some i =>
          mkFrame (fst (selected (_level this) i this4))
                  (head ++ [GetProjectedSize box]
                        ++ snd (selected (_level this) i this4))
                  Normal (Some STATE_INTERSECTING_FRUSTUM)
      | None => mkFrame this4 (head ++ [GetProjectedSize box])
                        Normal (Some STATE_INTERSECTING_FRUSTUM)
      end
  end.
Proof.
  unfold reachesFrustum, configures, outerPasses, innerPasses, frustumResult,
    levelsOf, projectedSize, viewBoxOf, _render, cascade. fold r.
  intros [-> [-> [-> Hfr]]]; cbn zeta. subst os box. unfold viewBoxOf. fold r.
  assert (Hlv : _levels (settled STATE_INTERSECTING_FRUSTUM (_state this) (r_this r))
                = _levels (r_this r)) by apply settled_frame.
  destruct (testAxisBoxIntersection sv (_viewBox (r_this r))); [| |congruence];
    rewrite changeIfNew_eq; cbv beta iota zeta; rewrite Hlv;
    (destruct (_levels (r_this r)) as [lv|];
     [ rewrite lodLoop_eq;
       destruct (selectLevel lv (getProjectedSize sv (_viewBox (r_this r)))
                             (List.length lv));
       cbn; rewrite ?app_nil_r, <- ?app_assoc; reflexivity
     | cbn; rewrite <- ?app_assoc; reflexivity ]).
Qed.

End Cases.

(** ** Observations on the parts of a trace *)

Lemma calls_app (p : Call -> bool) (a b : list Call) :
  calls p (a ++ b) = (calls p a + calls p b)%nat.
Proof.
  unfold calls. rewrite filter_app, length_app. reflexivity.
Qed.

Lemma renders_app (a b : list Call) : renders (a ++ b) = renders a ++ renders b.
Proof.
  apply filter_app.
Qed.

Lemma fired_app (name : string) (a b : list Call) :
  fired name (a ++ b) = fired name a ++ fired name b.
Proof.
  apply flat_map_app.
Qed.

Lemma visited_app (children : list nat) (a b : list Call) :
  visited children (a ++ b) = visited children a ++ visited children b.
Proof.
  apply flat_map_app.
Qed.

Lemma calls_refresh (p : Call -> bool) (sv : Services) (this : BoundingBox) :
  (forall c, isSetup c = true -> p c = false) ->
  calls p (r_trace (refresh sv this)) = 0%nat.
Proof.
  intros Hp. unfold calls.
  rewrite (filter_setup p _ Hp (refresh_trace_setup sv this)). reflexivity.
Qed.

Lemma renders_refresh (sv : Services) (this : BoundingBox) :
  renders (r_trace (refresh sv this)) = [].
Proof.
  apply filter_setup; [|apply refresh_trace_setup].
  intros [] H; try discriminate; reflexivity.
Qed.

Lemma fired_refresh (name : string) (sv : Services) (this : BoundingBox) :
  fired name (r_trace (refresh sv this)) = [].
Proof.
  apply fired_setup, refresh_trace_setup.
Qed.

Lemma visited_refresh (children : list nat) (sv : Services) (this : BoundingBox) :
  visited children (r_trace (refresh sv this)) = [].
Proof.
  apply visited_setup, refresh_trace_setup.
Qed.

Lemma setup_not_test (c : Call) :
  isSetup c = true ->
  isTestOuter c = false /\ isTestInner c = false /\ isTestFrustum c = false /\
  isGetProjectedSize c = false.
Proof.
  destruct c; try discriminate; intros _; repeat split.
Qed.

(** A state announcement is neither a test nor a visit. *)
Lemma announced_quiet (ns os : Z) (this : BoundingBox) (children : list nat) :
  renders (announced ns os this) = [] /\
  visited children (announced ns os this) = [] /\
  fired "lod-selected" (announced ns os this) = [] /\
  calls isTestOuter (announced ns os this) = 0%nat /\
  calls isTestInner (announced ns os this) = 0%nat /\
  calls isTestFrustum (announced ns os this) = 0%nat /\
  calls isGetProjectedSize (announced ns os this) = 0%nat.
Proof.
  unfold announced.
  destruct (negb (ns =? os) && _listeners this "state-changed"); repeat split.
Qed.

(** The state that the node holds after [changeIfNew] on a refreshed node:
    the reset made by a dirty refresh survives when the computed state
    equals the state held on entry. *)
Lemma stored_state (sv : Services) (this : BoundingBox) (ns : Z) :
  ns <> STATE_INITIAL ->
  _state (settled ns (_state this) (r_this (refresh sv this))) =
  (if (_memoLevel this =? 0) && (_state this =? ns) then STATE_INITIAL else ns).
Proof.
  intros Hns.
  destruct (settled_frame ns (_state this) (r_this (refresh sv this)))
    as [_ [_ [_ [_ [_ ->]]]]].
  destruct (refresh_frame sv this) as [_ [_ [_ [_ ->]]]].
  rewrite (Z.eqb_sym (_state this) ns).
  destruct (Z.eqb_spec ns (_state this)) as [E|E];
    destruct (_memoLevel this =? 0); cbn; congruence.
Qed.

Ltac observe sv this :=
  cbn [after trace completion newState];
  rewrite ?calls_app, ?renders_app, ?fired_app, ?visited_app,
    ?renders_refresh, ?fired_refresh, ?visited_refresh,
    ?(calls_refresh isTestOuter sv this (fun c H => proj1 (setup_not_test c H))),
    ?(calls_refresh isTestInner sv this
        (fun c H => proj1 (proj2 (setup_not_test c H)))),
    ?(calls_refresh isTestFrustum sv this
        (fun c H => proj1 (proj2 (proj2 (setup_not_test c H))))),
    ?(calls_refresh isGetProjectedSize sv this
        (fun c H => proj2 (proj2 (proj2 (setup_not_test c H))))).

(** ** The cascade *)

(** Frames in which the outer-radius test fails: the state computed for
    the frame is OUTSIDE_OUTER, no child is visited or requested, and the
    inner-radius test, the frustum test and the projected-size query are not
    called (the outer-radius test is called once).  The state field then
    holds OUTSIDE_OUTER, except that a frame which starts dirty while already
    in that state leaves the INITIAL written by its refresh in place. *)
Theorem outer_failure_short_circuits (sv : Services) (this : BoundingBox) :
  configures sv this -> outerPasses sv this = false ->
  let f := _render sv this in
  newState f = Some STATE_OUTSIDE_OUTER_LOCALITY /\
  _state (after f) =
    (if (_memoLevel this =? 0) && (_state this =? STATE_OUTSIDE_OUTER_LOCALITY)
     then STATE_INITIAL else STATE_OUTSIDE_OUTER_LOCALITY) /\
  renders (trace f) = [] /\
  visited (_children this) (trace f) = [] /\
  calls isTestOuter (trace f) = 1%nat /\
  calls isTestInner (trace f) = 0%nat /\
  calls isTestFrustum (trace f) = 0%nat /\
  calls isGetProjectedSize (trace f) = 0%nat.
Proof.
  intros Hc Ho f. subst f. rewrite (render_outside_outer sv this Hc Ho).
  observe sv this.
  destruct (announced_quiet STATE_OUTSIDE_OUTER_LOCALITY (_state this)
              (r_this (refresh sv this)) (_children this))
    as [-> [-> [_ [-> [-> [-> ->]]]]]].
  split; [reflexivity|]. split; [apply stored_state; discriminate|].
  repeat split.
Qed.

(** Frames in which the outer-radius test passes and the inner-radius
    test fails: the state computed for the frame is
    INTERSECT_OUTER, all children are visited through one [_renderNodes]
    request, and neither the frustum test nor the projected-size query is
    called.  The state field then holds INTERSECT_OUTER, except that a frame
    which starts dirty while already in that state leaves the INITIAL written
    by its refresh in place. *)
Theorem inner_failure_stages_content (sv : Services) (this : BoundingBox) :
  configures sv this -> outerPasses sv this = true -> innerPasses sv this = false ->
  let f := _render sv this in
  newState f = Some STATE_INTERSECTING_OUTER_LOCALITY /\
  _state (after f) =
    (if (_memoLevel this =? 0) && (_state this =? STATE_INTERSECTING_OUTER_LOCALITY)
     then STATE_INITIAL else STATE_INTERSECTING_OUTER_LOCALITY) /\
  renders (trace f) = [RenderNodes] /\
  visited (_children this) (trace f) = _children this /\
  calls isTestInner (trace f) = 1%nat /\
  calls isTestFrustum (trace f) = 0%nat /\
  calls isGetProjectedSize (trace f) = 0%nat.
Proof.
  intros Hc Ho Hi f. subst f. rewrite (render_intersect_outer sv this Hc Ho Hi).
  observe sv this.
  destruct (announced_quiet STATE_INTERSECTING_OUTER_LOCALITY (_state this)
              (r_this (refresh sv this)) (_children this))
    as [-> [-> [_ [_ [-> [-> ->]]]]]].
  split; [reflexivity|]. split; [apply stored_state; discriminate|].
  cbn. rewrite app_nil_r. repeat split.
Qed.

(** Frames in which the outer and inner tests pass and the frustum test
    answers OUTSIDE: no child is visited or requested and the
    state computed and reported for the frame is INTERSECT_INNER: it is the
    [newState] of every state-changed event of the frame, and no other state
    value is produced.  The state field then holds INTERSECT_INNER, except
    that a frame which starts dirty while already in that state leaves the
    INITIAL written by its refresh in place. *)
Theorem frustum_failure_reports_inner (sv : Services) (this : BoundingBox) :
  configures sv this -> outerPasses sv this = true -> innerPasses sv this = true ->
  frustumResult sv this = _math_OUTSIDE_FRUSTUM ->
  let f := _render sv this in
  newState f = Some STATE_INTERSECTING_INNER_LOCALITY /\
  _state (after f) =
    (if (_memoLevel this =? 0) && (_state this =? STATE_INTERSECTING_INNER_LOCALITY)
     then STATE_INITIAL else STATE_INTERSECTING_INNER_LOCALITY) /\
  renders (trace f) = [] /\
  visited (_children this) (trace f) = [] /\
  (forall o n, In (StateParams o n) (fired "state-changed" (trace f)) ->
               n = STATE_INTERSECTING_INNER_LOCALITY) /\
  calls isTestFrustum (trace f) = 1%nat /\
  calls isGetProjectedSize (trace f) = 0%nat.
Proof.
  intros Hc Ho Hi Hf f. subst f. rewrite (render_outside_frustum sv this Hc Ho Hi Hf).
  observe sv this.
  destruct (announced_quiet STATE_INTERSECTING_INNER_LOCALITY (_state this)
              (r_this (refresh sv this)) (_children this))
    as [-> [-> [_ [_ [_ [-> ->]]]]]].
  split; [reflexivity|]. split; [apply stored_state; discriminate|].
  repeat split.
  intros o n. unfold announced.
  destruct (negb _ && _); cbn; [|contradiction].
  intros [H|H]; [|contradiction].
  injection H as _ <-. reflexivity.
Qed.

(** ** The frustum stage *)

Lemma settled_refresh_frame (ns : Z) (sv : Services) (this : BoundingBox) :
  let t := settled ns (_state this) (r_this (refresh sv this)) in
  _level t = _level this /\ _children t = _children this /\
  _listeners t = _listeners this /\ _levels t = levelsOf sv this /\
  _viewBox t = viewBoxOf sv this.
Proof.
  cbn zeta. unfold levelsOf, viewBoxOf.
  destruct (settled_frame ns (_state this) (r_this (refresh sv this)))
    as [-> [-> [-> [-> [-> _]]]]].
  destruct (refresh_frame sv this) as [-> [-> [-> _]]].
  repeat split.
Qed.

Lemma render_selected (sv : Services) (this : BoundingBox) (lv : list Num) (i : nat) :
  reachesFrustum sv this -> levelsOf sv this = Some lv ->
  HighestAtMost lv (projectedSize sv this) i ->
  let f := _render sv this in
  newState f = Some STATE_INTERSECTING_FRUSTUM /\
  completion f = Normal /\
  _level (after f) = Z.of_nat i /\
  _children (after f) = _children this /\
  renders (trace f) =
    [if (0 <? List.length (_children this))%nat then RenderNode i else RenderNodes] /\
  visited (_children this) (trace f) =
    visitedBy (_children this)
      (if (0 <? List.length (_children this))%nat then RenderNode i else RenderNodes) /\
  fired "lod-selected" (trace f) =
    (if negb (_level this =? Z.of_nat i) && _listeners this "lod-selected"
     then [LevelParams (_level this) (Z.of_nat i)] else []).
Proof.
  intros Hr Hlv Hi f. subst f.
  rewrite (render_frustum sv this Hr); cbv zeta. rewrite Hlv.
  apply select_highest in Hi. rewrite Hi.
  destruct (settled_refresh_frame STATE_INTERSECTING_FRUSTUM sv this)
    as [_ [Hch [Hli _]]].
  unfold selected. cbn [fst snd]. observe sv this. rewrite Hch, Hli.
  destruct (announced_quiet STATE_INTERSECTING_FRUSTUM (_state this)
              (r_this (refresh sv this)) (_children this))
    as [-> [-> [-> _]]].
  cbn [_level _children set_level]. repeat split.
  - exact Hch.
  - destruct (negb _ && _); destruct (List.length (_children this)); reflexivity.
  - destruct (negb _ && _); destruct (List.length (_children this));
      cbn; rewrite ?app_nil_r; reflexivity.
  - destruct (negb _ && _); destruct (List.length (_children this)); reflexivity.
Qed.

Lemma render_unselected (sv : Services) (this : BoundingBox) (lv : list Num) :
  reachesFrustum sv this -> levelsOf sv this = Some lv ->
  (forall t, In (Fin t) lv -> projectedSize sv this < t) ->
  let f := _render sv this in
  newState f = Some STATE_INTERSECTING_FRUSTUM /\
  completion f = Normal /\
  _level (after f) = _level this /\
  renders (trace f) = [] /\
  visited (_children this) (trace f) = [] /\
  fired "lod-selected" (trace f) = [].
Proof.
  intros Hr Hlv Hnone f. subst f.
  rewrite (render_frustum sv this Hr); cbv zeta. rewrite Hlv.
  apply select_none in Hnone. rewrite Hnone.
  destruct (settled_refresh_frame STATE_INTERSECTING_FRUSTUM sv this) as [Hl _].
  observe sv this.
  destruct (announced_quiet STATE_INTERSECTING_FRUSTUM (_state this)
              (r_this (refresh sv this)) (_children this))
    as [-> [-> [-> _]]].
  repeat split. exact Hl.
Qed.

Lemma render_plain (sv : Services) (this : BoundingBox) :
  reachesFrustum sv this -> levelsOf sv this = None ->
  let f := _render sv this in
  newState f = Some STATE_INTERSECTING_FRUSTUM /\
  completion f = Normal /\
  _level (after f) = _level this /\
  renders (trace f) = [RenderNodes] /\
  visited (_children this) (trace f) = _children this /\
  fired "lod-selected" (trace f) = [].
Proof.
  intros Hr Hlv f. subst f.
  rewrite (render_frustum sv this Hr); cbv zeta. rewrite Hlv.
  destruct (settled_refresh_frame STATE_INTERSECTING_FRUSTUM sv this) as [Hl _].
  observe sv this.
  destruct (announced_quiet STATE_INTERSECTING_FRUSTUM (_state this)
              (r_this (refresh sv this)) (_children this))
    as [-> [-> [-> _]]].
  cbn. rewrite app_nil_r. repeat split. exact Hl.
Qed.

Lemma reachesFrustum_dec (sv : Services) (this : BoundingBox) :
  reachesFrustum sv this \/ ~ reachesFrustum sv this.
Proof.
  unfold reachesFrustum, configures.
  destruct (r_completion (refresh sv this));
    [|right; intros [H _]; discriminate].
  destruct (outerPasses sv this); [|right; intros [_ [H _]]; discriminate].
  destruct (innerPasses sv this); [|right; intros [_ [_ [H _]]]; discriminate].
  destruct (frustumResult sv this);
    [left|left|right; intros [_ [_ [_ H]]]; congruence];
    repeat split; discriminate.
Qed.

(** A frame that stops before the frustum stage, or that is answered
    OUTSIDE there, computes another state, keeps the level and fires no
    level event. *)
Lemma render_below_frustum (sv : Services) (this : BoundingBox) :
  ~ reachesFrustum sv this ->
  let f := _render sv this in
  newState f <> Some STATE_INTERSECTING_FRUSTUM /\
  _level (after f) = _level this /\
  fired "lod-selected" (trace f) = [].
Proof.
  intros Hn f. subst f.
  destruct (refresh_frame sv this) as [Hl0 _].
  destruct (r_completion (refresh sv this)) as [|e] eqn:Hc.
  - destruct (outerPasses sv this) eqn:Ho.
    + destruct (innerPasses sv this) eqn:Hi.
      * destruct (frustumResult sv this) eqn:Hf;
          try (exfalso; apply Hn; repeat split; try assumption; congruence).
        rewrite (render_outside_frustum sv this Hc Ho Hi Hf). observe sv this.
        destruct (settled_refresh_frame STATE_INTERSECTING_INNER_LOCALITY sv this)
          as [-> _].
        destruct (announced_quiet STATE_INTERSECTING_INNER_LOCALITY (_state this)
                    (r_this (refresh sv this)) []) as [_ [_ [-> _]]].
        repeat split. discriminate.
      * rewrite (render_intersect_outer sv this Hc Ho Hi). observe sv this.
        destruct (settled_refresh_frame STATE_INTERSECTING_OUTER_LOCALITY sv this)
          as [-> _].
        destruct (announced_quiet STATE_INTERSECTING_OUTER_LOCALITY (_state this)
                    (r_this (refresh sv this)) []) as [_ [_ [-> _]]].
        repeat split. discriminate.
    + rewrite (render_outside_outer sv this Hc Ho). observe sv this.
      destruct (settled_refresh_frame STATE_OUTSIDE_OUTER_LOCALITY sv this)
        as [-> _].
      destruct (announced_quiet STATE_OUTSIDE_OUTER_LOCALITY (_state this)
                  (r_this (refresh sv this)) []) as [_ [_ [-> _]]].
      repeat split. discriminate.
  - rewrite (render_throw sv this e Hc). observe sv this.
    repeat split; [discriminate|exact Hl0].
Qed.

(** ** Level-of-detail selection *)

(** C1.  When a frame reaches the frustum stage with a threshold table
    [lv] in force, the level selected for projected size [s] is the highest
    index [i] with [lv[i] <= s], which is where the downward scan of the
    table returns; when every threshold exceeds [s] the scan finds nothing,
    the stored level is left as it was and no child is visited or requested.
    For the table [10,200,400,600], size 250 selects 1, size 1000 selects 3,
    and size 5 selects nothing and visits nothing. *)
Theorem lod_selects_highest_threshold
    (sv : Services) (this : BoundingBox) (lv : list Num) :
  reachesFrustum sv this -> levelsOf sv this = Some lv ->
  let s := projectedSize sv this in
  let f := _render sv this in
  ((exists i, HighestAtMost lv s i) \/ (forall t, In (Fin t) lv -> s < t)) /\
  (forall i, HighestAtMost lv s i ->
     selectLevel lv s (List.length lv) = Some i /\
     _level (after f) = Z.of_nat i) /\
  ((forall t, In (Fin t) lv -> s < t) ->
     selectLevel lv s (List.length lv) = None /\
     _level (after f) = _level this /\
     renders (trace f) = [] /\
     visited (_children this) (trace f) = []) /\
  (lv = map Fin [10; 200; 400; 600] ->
     (s = 250 -> _level (after f) = 1) /\
     (s = 1000 -> _level (after f) = 3) /\
     (s = 5 -> _level (after f) = _level this /\
               renders (trace f) = [] /\
               visited (_children this) (trace f) = [])).
Proof.
  intros Hr Hlv s f.
  assert (Hsome : forall i, HighestAtMost lv s i ->
            selectLevel lv s (List.length lv) = Some i /\
            _level (after f) = Z.of_nat i).
  { intros i Hi. split; [apply select_highest; exact Hi|].
    apply (render_selected sv this lv i Hr Hlv Hi). }
  assert (Hnone : (forall t, In (Fin t) lv -> s < t) ->
            selectLevel lv s (List.length lv) = None /\
            _level (after f) = _level this /\
            renders (trace f) = [] /\
            visited (_children this) (trace f) = []).
  { intros Hn. split; [apply select_none; exact Hn|].
    destruct (render_unselected sv this lv Hr Hlv Hn) as [_ [_ [H1 [H2 [H3 _]]]]].
    auto. }
  split; [apply highest_or_none|]. split; [exact Hsome|]. split; [exact Hnone|].
  intros Elv. split; [|split].
  - intros Es. apply (Hsome 1%nat). apply select_highest.
    rewrite Elv, Es. reflexivity.
  - intros Es. apply (Hsome 3%nat). apply select_highest.
    rewrite Elv, Es. reflexivity.
  - intros Es. apply Hnone. apply select_none. rewrite Elv, Es. reflexivity.
Qed.

(** C10.  A frame either leaves the stored level as it was, or overwrites
    it with the index [i >= 0] that it selects; it never writes [-1].  A
    frame that does not reach the frustum stage, or in which every threshold
    exceeds the projected size, leaves the stored level in place.  Hence
    once the stored level is non-negative it stays non-negative over any
    number of later frames. *)
Theorem level_never_reset (this : BoundingBox) :
  (forall sv, let f := _render sv this in
     (_level (after f) = _level this \/
      exists lv i, reachesFrustum sv this /\ levelsOf sv this = Some lv /\
                   HighestAtMost lv (projectedSize sv this) i /\
                   _level (after f) = Z.of_nat i) /\
     (newState f <> Some STATE_INTERSECTING_FRUSTUM ->
      _level (after f) = _level this) /\
     (forall lv, levelsOf sv this = Some lv ->
                 (forall t, In (Fin t) lv -> projectedSize sv this < t) ->
                 _level (after f) = _level this)) /\
  (forall frames, 0 <= _level this ->
     Forall (fun f => 0 <= _level (after f)) (run this frames)).
Proof.
  assert (Hone : forall node sv, let f := _render sv node in
     (_level (after f) = _level node \/
      exists lv i, reachesFrustum sv node /\ levelsOf sv node = Some lv /\
                   HighestAtMost lv (projectedSize sv node) i /\
                   _level (after f) = Z.of_nat i) /\
     (newState f <> Some STATE_INTERSECTING_FRUSTUM ->
      _level (after f) = _level node) /\
     (forall lv, levelsOf sv node = Some lv ->
                 (forall t, In (Fin t) lv -> projectedSize sv node < t) ->
                 _level (after f) = _level node)).
  { intros node sv f.
    destruct (reachesFrustum_dec sv node) as [Hr|Hn].
    - destruct (levelsOf sv node) as [lv|] eqn:Hlv.
      + destruct (highest_or_none lv (projectedSize sv node)) as [[i Hi]|Hnone].
        * destruct (render_selected sv node lv i Hr Hlv Hi) as [Hns [_ [Hl _]]].
          fold f in Hns, Hl. split; [|split].
          -- right. exists lv, i. auto.
          -- intros H. congruence.
          -- intros lv' E Hall. injection E as <-.
             destruct Hi as [[t [Ht Hle]] _].
             specialize (Hall t (nth_error_In _ _ Ht)). lia.
        * destruct (render_unselected sv node lv Hr Hlv Hnone) as [_ [_ [Hl _]]].
          fold f in Hl. auto.
      + destruct (render_plain sv node Hr Hlv) as [_ [_ [Hl _]]].
        fold f in Hl. split; [auto|]. split; [auto|]. intros lv E. discriminate.
    - destruct (render_below_frustum sv node Hn) as [_ [Hl _]].
      fold f in Hl. auto. }
  split; [exact (Hone this)|].
  intros frames. revert this.
  induction frames as [|sv rest IH]; intros node Hpos; cbn; constructor.
  - destruct (Hone node sv) as [[E|[lv [i [_ [_ [_ E]]]]]] _]; rewrite E; lia.
  - apply IH.
    destruct (Hone node sv) as [[E|[lv [i [_ [_ [_ E]]]]]] _]; rewrite E; lia.
Qed.

(** C6, as the code has it.  With a lod-selected listener registered, a
    frame fires the event exactly when it selects an index [i] (it reaches
    the frustum stage, a table is in force and some threshold is at most the
    projected size) that differs from the stored level; the payload is the
    stored level and [i].  A frame that selects no index fires nothing and
    keeps the stored level, so no event ever carries a new level of [-1]. *)
Theorem lod_selected_fires_on_new_index (sv : Services) (this : BoundingBox) :
  _listeners this "lod-selected" = true ->
  let f := _render sv this in
  (forall lv i,
     reachesFrustum sv this -> levelsOf sv this = Some lv ->
     HighestAtMost lv (projectedSize sv this) i ->
     fired "lod-selected" (trace f) =
       (if _level this =? Z.of_nat i then []
        else [LevelParams (_level this) (Z.of_nat i)])) /\
  ((~ exists lv i, reachesFrustum sv this /\ levelsOf sv this = Some lv /\
                   HighestAtMost lv (projectedSize sv this) i) ->
     fired "lod-selected" (trace f) = [] /\ _level (after f) = _level this) /\
  (forall p, In p (fired "lod-selected" (trace f)) ->
     exists i, p = LevelParams (_level this) (Z.of_nat i) /\
               Z.of_nat i <> _level this /\ _level (after f) = Z.of_nat i).
Proof.
  intros Hli f.
  assert (Hsel : forall lv i,
     reachesFrustum sv this -> levelsOf sv this = Some lv ->
     HighestAtMost lv (projectedSize sv this) i ->
     fired "lod-selected" (trace f) =
       (if _level this =? Z.of_nat i then []
        else [LevelParams (_level this) (Z.of_nat i)]) /\
     _level (after f) = Z.of_nat i).
  { intros lv i Hr Hlv Hi.
    destruct (render_selected sv this lv i Hr Hlv Hi) as [_ [_ [Hl [_ [_ [_ Hf]]]]]].
    fold f in Hl, Hf. rewrite Hf, Hli.
    destruct (_level this =? Z.of_nat i); auto. }
  assert (Hnot : (~ exists lv i, reachesFrustum sv this /\ levelsOf sv this = Some lv /\
                   HighestAtMost lv (projectedSize sv this) i) ->
     fired "lod-selected" (trace f) = [] /\ _level (after f) = _level this).
  { intros Hn.
    destruct (reachesFrustum_dec sv this) as [Hr|Hb].
    - destruct (levelsOf sv this) as [lv|] eqn:Hlv.
      + destruct (highest_or_none lv (projectedSize sv this)) as [[i Hi]|Hnone].
        * exfalso. apply Hn. exists lv, i. auto.
        * destruct (render_unselected sv this lv Hr Hlv Hnone)
            as [_ [_ [Hl [_ [_ Hf]]]]]. auto.
      + destruct (render_plain sv this Hr Hlv) as [_ [_ [Hl [_ [_ Hf]]]]]. auto.
    - destruct (render_below_frustum sv this Hb) as [_ [Hl Hf]]. auto. }
  split; [intros lv i Hr Hlv Hi; apply (Hsel lv i Hr Hlv Hi)|].
  split; [exact Hnot|].
  intros p Hp.
  destruct (reachesFrustum_dec sv this) as [Hr|Hb].
  - destruct (levelsOf sv this) as [lv|] eqn:Hlv.
    + destruct (highest_or_none lv (projectedSize sv this)) as [[i Hi]|Hnone].
      * destruct (Hsel lv i Hr eq_refl Hi) as [Hf Hl]. rewrite Hf in Hp.
        destruct (Z.eqb_spec (_level this) (Z.of_nat i)) as [E|E];
          [contradiction|].
        destruct Hp as [<-|[]]. exists i. auto.
      * destruct (render_unselected sv this lv Hr Hlv Hnone)
          as [_ [_ [_ [_ [_ Hf]]]]].
        fold f in Hf. rewrite Hf in Hp. contradiction.
    + destruct (render_plain sv this Hr Hlv) as [_ [_ [_ [_ [_ Hf]]]]].
      fold f in Hf. rewrite Hf in Hp. contradiction.
  - destruct (render_below_frustum sv this Hb) as [_ [_ Hf]].
    fold f in Hf. rewrite Hf in Hp. contradiction.
Qed.

(** ** State-changed notification *)

Lemma fired_state_announced (ns os : Z) (this : BoundingBox) :
  fired "state-changed" (announced ns os this) =
  (if negb (ns =? os) && _listeners this "state-changed"
   then [StateParams ns ns] else []).
Proof.
  unfold announced. destruct (negb (ns =? os) && _listeners this "state-changed");
    reflexivity.
Qed.

Lemma fired_state_selected (origLevel : Z) (i : nat) (this : BoundingBox) :
  fired "state-changed" (snd (selected origLevel i this)) = [].
Proof.
  unfold selected. cbn [snd]. rewrite fired_app.
  destruct (negb _ && _); destruct (List.length (_children this)); reflexivity.
Qed.

(** The state-changed events of a frame: one event, carrying the computed
    state in both fields, when the computed state differs from the state held
    on entry and a listener is registered; none otherwise. *)
Lemma state_changed_fired (sv : Services) (this : BoundingBox) :
  let f := _render sv this in
  fired "state-changed" (trace f) =
  match newState f with
  | Some ns => if negb (ns =? _state this) && _listeners this "state-changed"
               then [StateParams ns ns] else []
  | None => []
  end.
Proof.
  intros f. subst f.
  destruct (refresh_frame sv this) as [_ [_ [Hli _]]].
  destruct (r_completion (refresh sv this)) as [|e] eqn:Hc.
  - destruct (outerPasses sv this) eqn:Ho.
    + destruct (innerPasses sv this) eqn:Hi.
      * destruct (frustumResult sv this) eqn:Hf.
        -- assert (Hr : reachesFrustum sv this)
             by (repeat split; try assumption; congruence).
           rewrite (render_frustum sv this Hr); cbv zeta.
           destruct (levelsOf sv this) as [lv|];
             [destruct (selectLevel lv (projectedSize sv this) (List.length lv))|];
             observe sv this; rewrite fired_state_announced, ?fired_state_selected, Hli;
             destruct (negb _ && _); reflexivity.
        -- assert (Hr : reachesFrustum sv this)
             by (repeat split; try assumption; congruence).
           rewrite (render_frustum sv this Hr); cbv zeta.
           destruct (levelsOf sv this) as [lv|];
             [destruct (selectLevel lv (projectedSize sv this) (List.length lv))|];
             observe sv this; rewrite fired_state_announced, ?fired_state_selected, Hli;
             destruct (negb _ && _); reflexivity.
        -- rewrite (render_outside_frustum sv this Hc Ho Hi Hf). observe sv this.
           rewrite fired_state_announced, Hli. destruct (negb _ && _); reflexivity.
      * rewrite (render_intersect_outer sv this Hc Ho Hi). observe sv this.
        rewrite fired_state_announced, Hli. destruct (negb _ && _); reflexivity.
    + rewrite (render_outside_outer sv this Hc Ho). observe sv this.
      rewrite fired_state_announced, Hli. destruct (negb _ && _); reflexivity.
  - rewrite (render_throw sv this e Hc). observe sv this. reflexivity.
Qed.

(** With a listener registered, a frame that completes fires state-changed
    exactly when its computed state differs from the state held on entry. *)
Lemma state_changed_fires_iff (sv : Services) (this : BoundingBox) (ns : Z) :
  _listeners this "state-changed" = true ->
  newState (_render sv this) = Some ns ->
  fired "state-changed" (trace (_render sv this)) <> [] <-> ns <> _state this.
Proof.
  intros Hli Hns. rewrite (state_changed_fired sv this), Hns, Hli.
  destruct (Z.eqb_spec ns (_state this)) as [E|E]; cbn; split; congruence.
Qed.

(** Every delivered state-changed payload repeats the computed state in
    [oldState]. *)
Lemma state_changed_payload (sv : Services) (this : BoundingBox) (o n : Z) :
  In (StateParams o n) (fired "state-changed" (trace (_render sv this))) ->
  o = n /\ newState (_render sv this) = Some n /\ n <> _state this.
Proof.
  rewrite (state_changed_fired sv this).
  destruct (newState (_render sv this)) as [ns|]; [|contradiction].
  destruct (Z.eqb_spec ns (_state this)) as [E|E]; cbn; [contradiction|].
  destruct (_listeners this "state-changed"); cbn; [|contradiction].
  intros [H|[]]. injection H as <- <-. auto.
Qed.

(** C4, where the code departs from the specification.  [_changeState] stores the
    new state before it reads [this._state] into [oldState], so every
    delivered state-changed payload has [oldState = newState], the state
    computed by the frame, which differs from the state held before the
    frame.  On a fresh node whose outer-radius test fails, the delivered
    payload is [{oldState: 1, newState: 1}] although the node was in state 0. *)
Theorem state_changed_old_state_is_new_state :
  (forall ns this, _listeners this "state-changed" = true ->
     snd (_changeState ns this) = [FireEvent "state-changed" (StateParams ns ns)]) /\
  (forall sv this o n,
     In (StateParams o n) (fired "state-changed" (trace (_render sv this))) ->
     o = n /\ o <> _state this) /\
  (_state lodNode = STATE_INITIAL /\
   _listeners lodNode "state-changed" = true /\
   newState (_render farFrame lodNode) = Some STATE_OUTSIDE_OUTER_LOCALITY /\
   fired "state-changed" (trace (_render farFrame lodNode)) =
     [StateParams STATE_OUTSIDE_OUTER_LOCALITY STATE_OUTSIDE_OUTER_LOCALITY]).
Proof.
  split; [|split].
  - intros ns this H. unfold _changeState. cbn. rewrite H. reflexivity.
  - intros sv this o n H. apply state_changed_payload in H.
    destruct H as [-> [_ H]]. auto.
  - repeat split.
Qed.

(** C5, where the code departs from the specification.  A dirty frame resets the
    state field to INITIAL and restores it only through [_changeState]; when
    the computed state equals the state held on entry the field is left at
    INITIAL, and the next frame fires again for the same computed state.
    On a dynamically configured node whose outer-radius test fails in three
    consecutive frames the computed state is OUTSIDE_OUTER each time, yet
    state-changed fires in the first and in the third frame; the same
    happens on a statically configured node after one call of [setXMin]. *)
Theorem state_changed_fires_again_for_same_state :
  (let frames := run dynamicNode [farFrame; farFrame; farFrame] in
   map newState frames = [Some 1; Some 1; Some 1] /\
   map (fun f => fired "state-changed" (trace f)) frames =
     [[StateParams 1 1]; []; [StateParams 1 1]] /\
   map (fun f => _state (after f)) frames = [1; 0; 1]) /\
  (let f1 := _render farFrame lodNode in
   let f2 := _render farFrame (setXMin (-3) (after f1)) in
   let f3 := _render farFrame (after f2) in
   map newState [f1; f2; f3] = [Some 1; Some 1; Some 1] /\
   map (fun f => fired "state-changed" (trace f)) [f1; f2; f3] =
     [[StateParams 1 1]; []; [StateParams 1 1]] /\
   map (fun f => _state (after f)) [f1; f2; f3] = [1; 0; 1]).
Proof.
  split; cbv zeta; repeat split.
Qed.

(** ** Configuration errors *)

(** C7, as the code has it.  A threshold table whose length differs from
    the child count, or in which some entry is greater than or equal to its
    successor (for a table without NaN: that is not strictly ascending),
    makes [_init] raise the configuration error, the length error first; the
    stored threshold table, the selected level
    and the classification state are as before the call, while the six
    extents have already been overwritten from the refused configuration.
    When the refused configuration arrives during a frame (a dirty,
    dynamically configured node), the frame ends with that error after asking
    for the parameters only, the table and the level are as before, and the
    classification state has been reset to INITIAL. *)
Theorem bad_levels_raise_configuration_error
    (params : Params) (this : BoundingBox) (lv : list Num) :
  levels params = Some lv ->
  List.length lv <> List.length (_children this) \/ AdjacentDescent lv \/
  (NaNFree lv /\ ~ StrictlyAscending lv) ->
  let e := if Nat.eqb (List.length lv) (List.length (_children this))
           then LevelsAscendingUnique else LevelsValueForEachChild in
  let this' := fst (_init params this) in
  snd (_init params this) = Throw e /\
  _levels this' = _levels this /\
  _level this' = _level this /\
  _state this' = _state this /\
  (_xmin this', _ymin this', _zmin this', _xmax this', _ymax this', _zmax this') =
    (orZero (xmin params), orZero (ymin params), orZero (zmin params),
     orZero (xmax params), orZero (ymax params), orZero (zmax params)) /\
  (forall sv, getParams sv = params ->
     _fixedParams this = false -> _memoLevel this = 0 ->
     let f := _render sv this in
     completion f = Throw e /\
     trace f = [GetParams] /\
     _levels (after f) = _levels this /\
     _level (after f) = _level this /\
     _state (after f) = STATE_INITIAL).
Proof.
  intros Hp Hbad e this'.
  assert (Hthrow : forall node, _children node = _children this ->
            snd (_init params node) = Throw e /\
            _levels (fst (_init params node)) = _levels node).
  { intros node Hch. pose proof (init_outcome params node) as H.
    rewrite Hp, Hch in H. subst e.
    destruct (Nat.eqb_spec (List.length lv) (List.length (_children this)))
      as [E|E]; cbn in H; [|exact H].
    assert (Hd : AdjacentDescent lv).
    { destruct Hbad as [Hbad|[Hbad|[Hn Hbad]]];
        [contradiction|exact Hbad|apply not_ascending_descent; assumption]. }
    apply descends_true_iff in Hd. rewrite Hd in H. exact H. }
  destruct (Hthrow this eq_refl) as [Hs Hl].
  destruct (init_frame params this)
    as [H1 [H2 [_ [_ [_ [_ [_ [_ [X1 [X2 [X3 [X4 [X5 X6]]]]]]]]]]]]].
  fold this' in Hl, H1, H2, X1, X2, X3, X4, X5, X6.
  split; [exact Hs|]. split; [exact Hl|]. split; [exact H1|]. split; [exact H2|].
  split; [congruence|].
  intros sv Hsv Hfixed Hmemo f.
  destruct (Hthrow (set_state STATE_INITIAL this) eq_refl) as [Hs' Hl'].
  destruct (init_frame params (set_state STATE_INITIAL this))
    as [L1 [L2 _]].
  assert (Hc : r_completion (refresh sv this) = Throw e).
  { unfold refresh, refreshDirty. rewrite Hmemo. cbn. rewrite Hfixed, Hsv. cbn.
    destruct (_init params (set_state STATE_INITIAL this)) as [t0 c0].
    cbn in Hs'. subst c0. reflexivity. }
  subst f. rewrite (render_throw sv this e Hc). cbn [completion trace after].
  destruct (refresh_throw sv this e Hc) as [_ [_ [_ [-> ->]]]]. rewrite Hsv.
  split; [reflexivity|]. split; [reflexivity|].
  split; [exact Hl'|]. split; [exact L1|exact L2].
Qed.

(** ** Frames on which sentences of the specification fail *)

(** C7 as stated fails: a dynamically configured node with four children
    is configured successfully in a first frame and is in state 4 with
    [xmin = -2]; a second frame supplies a table of two thresholds.  The
    error is raised, yet the node is left in state 0 with [xmin = -5]. *)
Lemma failed_reconfiguration_changes_node :
  let f1 := _render (configuringFrame (cube (Some lodLevels)) 250) dynamicLodNode in
  let f2 := _render (configuringFrame shortTable 250) (after f1) in
  completion f1 = Normal /\
  _levels (after f1) = Some lodLevels /\
  _state (after f1) = STATE_INTERSECTING_FRUSTUM /\
  _xmin (after f1) = -2 /\
  completion f2 = Throw LevelsValueForEachChild /\
  _levels (after f2) = Some lodLevels /\
  _state (after f2) = STATE_INITIAL /\
  _state (after f2) <> _state (after f1) /\
  _xmin (after f2) = -5 /\
  _xmin (after f2) <> _xmin (after f1).
Proof.
  cbv zeta. repeat split; discriminate.
Qed.

(** C6 as stated fails: with a listener registered, a first frame selects
    level 1 at size 250; in the next frame the size is 5, below the lowest
    threshold, so the selected index changes from 1 to none.  No lod-selected
    event is fired, and the stored level is still 1. *)
Lemma no_event_when_selection_is_lost :
  let f1 := _render (nearFrame 250) lodNode in
  let f2 := _render (nearFrame 5) (after f1) in
  _listeners lodNode "lod-selected" = true /\
  fired "lod-selected" (trace f1) = [LevelParams (-1) 1] /\
  selectedIndex (nearFrame 250) lodNode = 1 /\
  reachesFrustum (nearFrame 5) (after f1) /\
  selectedIndex (nearFrame 5) (after f1) = -1 /\
  fired "lod-selected" (trace f2) = [] /\
  _level (after f2) = 1 /\
  ~ (fired "lod-selected" (trace f2) <> [] <->
     selectedIndex (nearFrame 5) (after f1) <> selectedIndex (nearFrame 250) lodNode).
Proof.
  cbv zeta.
  assert (E : fired "lod-selected"
                (trace (_render (nearFrame 5) (after (_render (nearFrame 250) lodNode))))
              = []) by reflexivity.
  repeat split; try discriminate.
  intros [_ H]. apply H; [|exact E]. discriminate.
Qed.

(** ** The theorems at concrete frames *)

Lemma near_reaches_frustum (size : Z) : reachesFrustum (nearFrame size) lodNode.
Proof.
  repeat split. discriminate.
Defined.

Lemma lod_selects_highest_threshold_witness :
  reachesFrustum (nearFrame 250) lodNode /\
  levelsOf (nearFrame 250) lodNode = Some lodLevels /\
  _level (after (_render (nearFrame 250) lodNode)) = 1.
Proof.
  pose proof (lod_selects_highest_threshold (nearFrame 250) lodNode lodLevels
                (near_reaches_frustum 250) eq_refl) as H.
  cbv zeta in H. destruct H as [_ [_ [_ H]]].
  destruct (H eq_refl) as [H250 _].
  split; [exact (near_reaches_frustum 250)|]. split; [reflexivity|].
  exact (H250 eq_refl).
Defined.

Lemma outer_failure_short_circuits_witness :
  configures farFrame lodNode /\ outerPasses farFrame lodNode = false /\
  newState (_render farFrame lodNode) = Some STATE_OUTSIDE_OUTER_LOCALITY /\
  renders (trace (_render farFrame lodNode)) = [] /\
  calls isTestFrustum (trace (_render farFrame lodNode)) = 0%nat.
Proof.
  pose proof (outer_failure_short_circuits farFrame lodNode eq_refl eq_refl) as H.
  cbv zeta in H. destruct H as [H1 [_ [H2 [_ [_ [_ [H3 _]]]]]]].
  split; [reflexivity|]. split; [reflexivity|]. auto.
Defined.

Lemma frustum_failure_reports_inner_witness :
  configures culledFrame lodNode /\ outerPasses culledFrame lodNode = true /\
  innerPasses culledFrame lodNode = true /\
  frustumResult culledFrame lodNode = _math_OUTSIDE_FRUSTUM /\
  newState (_render culledFrame lodNode) = Some STATE_INTERSECTING_INNER_LOCALITY /\
  renders (trace (_render culledFrame lodNode)) = [].
Proof.
  pose proof (frustum_failure_reports_inner culledFrame lodNode
                eq_refl eq_refl eq_refl eq_refl) as H.
  cbv zeta in H. destruct H as [H1 [_ [H2 _]]].
  repeat (split; [reflexivity|]). auto.
Defined.

Lemma inner_failure_stages_content_witness :
  configures stagingFrame lodNode /\ outerPasses stagingFrame lodNode = true /\
  innerPasses stagingFrame lodNode = false /\
  newState (_render stagingFrame lodNode) = Some STATE_INTERSECTING_OUTER_LOCALITY /\
  visited (_children lodNode) (trace (_render stagingFrame lodNode))
    = [100; 101; 102; 103]%nat.
Proof.
  pose proof (inner_failure_stages_content stagingFrame lodNode
                eq_refl eq_refl eq_refl) as H.
  cbv zeta in H. destruct H as [H1 [_ [_ [H2 _]]]].
  repeat (split; [reflexivity|]). auto.
Defined.

Lemma highest_at_250 : HighestAtMost lodLevels (projectedSize (nearFrame 250) lodNode) 1.
Proof.
  apply select_highest. reflexivity.
Defined.

Lemma lod_selected_fires_on_new_index_witness :
  _listeners lodNode "lod-selected" = true /\
  fired "lod-selected" (trace (_render (nearFrame 250) lodNode))
    = [LevelParams (-1) 1].
Proof.
  pose proof (lod_selected_fires_on_new_index (nearFrame 250) lodNode eq_refl) as H.
  cbv zeta in H. destruct H as [H _].
  split; [reflexivity|].
  exact (H lodLevels 1%nat (near_reaches_frustum 250) eq_refl highest_at_250).
Defined.

Lemma bad_levels_raise_configuration_error_witness :
  levels shortTable = Some [Fin 10; Fin 200] /\
  List.length [Fin 10; Fin 200] <> List.length (_children lodNode) /\
  snd (_init shortTable lodNode) = Throw LevelsValueForEachChild /\
  _levels (fst (_init shortTable lodNode)) = Some lodLevels.
Proof.
  assert (Hlen : List.length [Fin 10; Fin 200] <> List.length (_children lodNode))
    by discriminate.
  pose proof (bad_levels_raise_configuration_error shortTable lodNode [Fin 10; Fin 200]
                eq_refl (or_introl Hlen)) as H.
  cbv zeta in H. destruct H as [H1 [H2 _]].
  split; [reflexivity|]. split; [exact Hlen|]. split; [exact H1|exact H2].
Defined.

Lemma level_never_reset_witness :
  0 <= _level (after (_render (nearFrame 250) lodNode)) /\
  Forall (fun f => 0 <= _level (after f))
         (run (after (_render (nearFrame 250) lodNode)) [nearFrame 5; farFrame]) /\
  map (fun f => _level (after f))
      (run (after (_render (nearFrame 250) lodNode)) [nearFrame 5; farFrame]) = [1; 1].
Proof.
  assert (H0 : 0 <= _level (after (_render (nearFrame 250) lodNode)))
    by discriminate.
  split; [exact H0|]. split; [|reflexivity].
  exact (proj2 (level_never_reset (after (_render (nearFrame 250) lodNode)))
               [nearFrame 5; farFrame] H0).
Defined.

(** * Further properties of the node *)

(** ** What a frame leaves alone *)

Lemma settled_same (ns os : Z) (this : BoundingBox) :
  sameConfiguration (settled ns os this) this.
Proof.
  unfold settled, sameConfiguration. destruct (ns =? os); cbn; repeat split.
Qed.

Lemma sameConfiguration_trans (a b c : BoundingBox) :
  sameConfiguration a b -> sameConfiguration b c -> sameConfiguration a c.
Proof.
  unfold sameConfiguration. intuition congruence.
Qed.

Lemma selected_same (origLevel : Z) (i : nat) (this : BoundingBox) :
  sameConfiguration (fst (selected origLevel i this)) this.
Proof.
  unfold selected, sameConfiguration. cbn. repeat split.
Qed.

Lemma announced_no_setup (ns os : Z) (this : BoundingBox) :
  filter isSetup (announced ns os this) = [].
Proof.
  unfold announced. destruct (negb _ && _); reflexivity.
Qed.

Lemma selected_no_setup (origLevel : Z) (i : nat) (this : BoundingBox) :
  filter isSetup (snd (selected origLevel i this)) = [].
Proof.
  unfold selected. cbn [snd]. rewrite filter_app.
  destruct (negb _ && _); destruct (List.length (_children this)); reflexivity.
Qed.

(** The cascade changes nothing but the state and the level, and calls
    none of the providers of the refresh phase. *)
Lemma render_after_refresh (sv : Services) (this : BoundingBox) :
  let f := _render sv this in
  sameConfiguration (after f) (r_this (refresh sv this)) /\
  completion f = r_completion (refresh sv this) /\
  exists tl, trace f = r_trace (refresh sv this) ++ tl /\ filter isSetup tl = [].
Proof.
  intros f. subst f.
  destruct (r_completion (refresh sv this)) as [|e] eqn:Hc.
  - destruct (outerPasses sv this) eqn:Ho.
    + destruct (innerPasses sv this) eqn:Hi.
      * destruct (frustumResult sv this) eqn:Hf;
          [ assert (Hr : reachesFrustum sv this)
              by (repeat split; try assumption; congruence)
          | assert (Hr : reachesFrustum sv this)
              by (repeat split; try assumption; congruence)
          | ].
        1,2: rewrite (render_frustum sv this Hr); cbv zeta;
          (destruct (levelsOf sv this) as [lv|];
           [destruct (selectLevel lv (projectedSize sv this) (List.length lv))|]);
          cbn [after trace completion];
          (split;
           [ first [ eapply sameConfiguration_trans;
                     [apply selected_same|apply settled_same]
                   | apply settled_same ]
           | split; [reflexivity|];
             rewrite <- !app_assoc; eexists; split; [reflexivity|];
             rewrite !filter_app, announced_no_setup, ?selected_no_setup;
             reflexivity ]).
        rewrite (render_outside_frustum sv this Hc Ho Hi Hf).
        cbn [after trace completion]. split; [apply settled_same|].
        split; [reflexivity|]. eexists; split; [reflexivity|].
        rewrite !filter_app, announced_no_setup. reflexivity.
      * rewrite (render_intersect_outer sv this Hc Ho Hi).
        cbn [after trace completion]. split; [apply settled_same|].
        split; [reflexivity|]. eexists; split; [reflexivity|].
        rewrite !filter_app, announced_no_setup. reflexivity.
    + rewrite (render_outside_outer sv this Hc Ho).
      cbn [after trace completion]. split; [apply settled_same|].
      split; [reflexivity|]. eexists; split; [reflexivity|].
      rewrite !filter_app, announced_no_setup. reflexivity.
  - rewrite (render_throw sv this e Hc). cbn [after trace completion].
    split; [repeat split|]. split; [reflexivity|].
    exists []. rewrite app_nil_r. auto.
Qed.

Lemma calls_only_setup (p : Call -> bool) (tl : list Call) :
  (forall c, p c = true -> isSetup c = true) ->
  filter isSetup tl = [] -> filter p tl = [].
Proof.
  intros Hp. induction tl as [|c tl IH]; cbn; [reflexivity|].
  destruct (isSetup c) eqn:Hs; [discriminate|].
  intros H. destruct (p c) eqn:Hc; [|auto].
  apply Hp in Hc. congruence.
Qed.

(** The provider calls of a frame are those of its refresh phase. *)
Lemma setup_calls_of_frame (p : Call -> bool) (sv : Services) (this : BoundingBox) :
  (forall c, p c = true -> isSetup c = true) ->
  calls p (trace (_render sv this)) = calls p (r_trace (refresh sv this)).
Proof.
  intros Hp. destruct (render_after_refresh sv this) as [_ [_ [tl [-> Htl]]]].
  unfold calls. rewrite filter_app, (calls_only_setup p tl Hp Htl), app_nil_r.
  reflexivity.
Qed.

Lemma getParams_is_setup (c : Call) : isGetParams c = true -> isSetup c = true.
Proof. destruct c; auto. Qed.

Lemma getTransform_is_setup (c : Call) : isGetTransform c = true -> isSetup c = true.
Proof. destruct c; auto. Qed.

Lemma instancing_is_setup (c : Call) : isInstancing c = true -> isSetup c = true.
Proof. destruct c; auto. Qed.

(** ** The memo levels *)

Lemma refresh_cached (sv : Services) (this : BoundingBox) :
  2 <= _memoLevel this -> refresh sv this = mkRefreshed this [] Normal.
Proof.
  intros H. unfold refresh, refreshView.
  destruct (Z.eqb_spec (_memoLevel this) 0) as [E|_]; [lia|]. cbn.
  destruct (Z.ltb_spec (_memoLevel this) 2); [lia|]. reflexivity.
Qed.

Lemma render_cached (sv : Services) (this : BoundingBox) :
  2 <= _memoLevel this ->
  let f := _render sv this in
  completion f = Normal /\
  calls isSetup (trace f) = 0%nat /\
  viewBoxOf sv this = _viewBox this /\
  levelsOf sv this = _levels this /\
  sameConfiguration (after f) this.
Proof.
  intros Hm f. subst f.
  pose proof (refresh_cached sv this Hm) as Hr.
  destruct (render_after_refresh sv this) as [Hs [Hc [tl [Ht Htl]]]].
  unfold viewBoxOf, levelsOf. rewrite Hr in *. cbn in *.
  repeat split; try apply Hs; try assumption.
  unfold calls. rewrite Ht, Htl. reflexivity.
Qed.

(** A frame on a fully cached node (memo level 2) completes, calls neither
    the parameter, transform nor instancing provider, tests the cached box
    and leaves extents, table and cache untouched. *)
Theorem cached_frame_skips_refresh (sv : Services) (this : BoundingBox) :
  2 <= _memoLevel this ->
  let f := _render sv this in
  completion f = Normal /\
  calls isSetup (trace f) = 0%nat /\
  viewBoxOf sv this = _viewBox this /\
  levelsOf sv this = _levels this /\
  sameConfiguration (after f) this.
Proof.
  exact (render_cached sv this).
Qed.

Lemma cached_frame_skips_refresh_witness :
  2 <= _memoLevel cachedNode /\
  calls isSetup (trace (_render farFrame cachedNode)) = 0%nat /\
  sameConfiguration (after (_render farFrame cachedNode)) cachedNode.
Proof.
  assert (Hm : 2 <= _memoLevel cachedNode) by discriminate.
  pose proof (cached_frame_skips_refresh farFrame cachedNode Hm) as H.
  cbv zeta in H. destruct H as [_ [H1 [_ [_ H2]]]].
  split; [exact Hm|]. split; [exact H1|exact H2].
Defined.

(** The memo level after the refresh phase. *)
Lemma refresh_memo (sv : Services) (this : BoundingBox) :
  _memoLevel (r_this (refresh sv this)) =
  if _memoLevel this =? 0 then
    if _fixedParams this then
      if identity (getTransform sv) then 2
      else if fixed (getTransform sv) && negb (instancing sv) then 2 else 1
    else
      match r_completion (refresh sv this) with
      | Throw _ => 0
      | Normal => if identity (getTransform sv) then 2 else 0
      end
  else if (_memoLevel this =? 1) && fixed (getTransform sv) && negb (instancing sv)
       then 2 else _memoLevel this.
Proof.
  unfold refresh, refreshDirty, refreshView; cbn.
  destruct (_memoLevel this =? 0) eqn:Hmemo; cbn.
  - apply Z.eqb_eq in Hmemo.
    destruct (_fixedParams this); cbn.
    + destruct (identity (getTransform sv)); cbn; [reflexivity|].
      destruct (fixed (getTransform sv)); cbn; [|reflexivity].
      destruct (instancing sv); reflexivity.
    + pose proof (init_frame (getParams sv) (set_state STATE_INITIAL this)) as Hinit.
      destruct (_init (getParams sv) (set_state STATE_INITIAL this)) as [t0 c0].
      cbn in Hinit. destruct Hinit as [_ [_ [_ [_ [Hm _]]]]].
      destruct c0; cbn; [|congruence].
      destruct (identity (getTransform sv)); cbn; [reflexivity|].
      rewrite Hm, Hmemo. cbn.
      destruct (fixed (getTransform sv)); cbn; congruence.
  - destruct (_memoLevel this <? 2) eqn:Hlt; cbn.
    + destruct (fixed (getTransform sv)); cbn;
        [|rewrite andb_false_r; reflexivity].
      destruct (_memoLevel this =? 1); cbn; [|reflexivity].
      destruct (instancing sv); reflexivity.
    + apply Z.ltb_ge in Hlt.
      destruct (Z.eqb_spec (_memoLevel this) 1) as [E|E]; [lia|reflexivity].
Qed.

Lemma render_memo (sv : Services) (this : BoundingBox) :
  _memoLevel (after (_render sv this)) = _memoLevel (r_this (refresh sv this)).
Proof.
  destruct (render_after_refresh sv this) as [[_ [_ [_ [_ [H _]]]]] _]. exact H.
Qed.

(** A frame never lowers the memo level: it keeps it, or raises it to 1
    or 2. *)
Theorem memo_level_never_lowered (sv : Services) (this : BoundingBox) :
  let f := _render sv this in
  _memoLevel this <= _memoLevel (after f) /\
  (_memoLevel (after f) = _memoLevel this \/
   _memoLevel (after f) = 1 \/ _memoLevel (after f) = 2).
Proof.
  intros f. subst f. rewrite render_memo, refresh_memo.
  split.
  - destruct (Z.eqb_spec (_memoLevel this) 0) as [E|E].
    + rewrite E. destruct (_fixedParams this);
        [|destruct (r_completion (refresh sv this))];
        repeat match goal with |- context [if ?b then _ else _] => destruct b end;
        lia.
    + destruct (Z.eqb_spec (_memoLevel this) 1) as [E1|E1]; cbn;
        repeat match goal with |- context [if ?b then _ else _] => destruct b end;
        lia.
  - destruct (Z.eqb_spec (_memoLevel this) 0) as [E|E].
    + rewrite E. destruct (_fixedParams this);
        [|destruct (r_completion (refresh sv this))];
        repeat match goal with |- context [if ?b then _ else _] => destruct b end;
        auto.
    + destruct (Z.eqb_spec (_memoLevel this) 1) as [E1|E1]; cbn;
        repeat match goal with |- context [if ?b then _ else _] => destruct b end;
        auto.
Qed.

(** The view-space box and the corner cache after the refresh phase of a
    statically configured node. *)
Lemma refresh_static_geometry (sv : Services) (this : BoundingBox) :
  _fixedParams this = true ->
  let r := refresh sv this in
  r_completion r = Normal /\
  (_xmin (r_this r), _ymin (r_this r), _zmin (r_this r),
   _xmax (r_this r), _ymax (r_this r), _zmax (r_this r)) =
  (_xmin this, _ymin this, _zmin this, _xmax this, _ymax this, _zmax this) /\
  _levels (r_this r) = _levels this /\
  _viewBox (r_this r) =
    (if _memoLevel this =? 0 then
       if identity (getTransform sv) then extentBox this
       else transformedBox sv (Some (objectCorners this))
     else if _memoLevel this <? 2 then transformedBox sv (_objectCoords this)
     else _viewBox this) /\
  _objectCoords (r_this r) =
    (if _memoLevel this =? 0 then
       if identity (getTransform sv) then _objectCoords this
       else if fixed (getTransform sv) && negb (instancing sv) then None
       else Some (objectCorners this)
     else if (_memoLevel this =? 1) && fixed (getTransform sv) && negb (instancing sv)
     then None else _objectCoords this) /\
  r_trace r =
    (if _memoLevel this =? 0 then
       if identity (getTransform sv) then [GetTransform]
       else [GetTransform; GetTransform]
            ++ (if fixed (getTransform sv) then [Instancing] else [])
     else if _memoLevel this <? 2 then
       [GetTransform]
       ++ (if fixed (getTransform sv) && (_memoLevel this =? 1)
           then [Instancing] else [])
     else []).
Proof.
  intros Hfixed r. subst r.
  unfold refresh, refreshDirty, refreshView, extentBox, transformedBox; cbn.
  destruct (_memoLevel this =? 0) eqn:Hmemo; cbn.
  - rewrite Hfixed; cbn.
    destruct (identity (getTransform sv)); cbn; [repeat split|].
    destruct (fixed (getTransform sv)); cbn; [|repeat split].
    destruct (instancing sv); cbn; repeat split.
  - destruct (_memoLevel this <? 2) eqn:Hlt; cbn.
    + destruct (fixed (getTransform sv)); cbn;
        [|rewrite andb_false_r; repeat split].
      destruct (_memoLevel this =? 1); cbn; [|repeat split].
      destruct (instancing sv); cbn; repeat split.
    + apply Z.ltb_ge in Hlt.
      destruct (Z.eqb_spec (_memoLevel this) 1) as [E|E]; [lia|]. repeat split.
Qed.

Lemma refresh_clean_geometry (sv : Services) (this : BoundingBox) :
  _memoLevel this <> 0 ->
  let r := refresh sv this in
  r_completion r = Normal /\
  (_xmin (r_this r), _ymin (r_this r), _zmin (r_this r),
   _xmax (r_this r), _ymax (r_this r), _zmax (r_this r)) =
  (_xmin this, _ymin this, _zmin this, _xmax this, _ymax this, _zmax this) /\
  _levels (r_this r) = _levels this /\
  _state (r_this r) = _state this /\
  _viewBox (r_this r) =
    (if _memoLevel this <? 2 then transformedBox sv (_objectCoords this)
     else _viewBox this) /\
  _objectCoords (r_this r) =
    (if (_memoLevel this =? 1) && fixed (getTransform sv) && negb (instancing sv)
     then None else _objectCoords this) /\
  r_trace r =
    (if _memoLevel this <? 2 then
       [GetTransform]
       ++ (if fixed (getTransform sv) && (_memoLevel this =? 1)
           then [Instancing] else [])
     else []).
Proof.
  intros Hm r. subst r. apply Z.eqb_neq in Hm.
  unfold refresh, refreshDirty, refreshView, transformedBox; cbn.
  rewrite Hm; cbn.
  destruct (_memoLevel this <? 2) eqn:Hlt; cbn.
  - destruct (fixed (getTransform sv)); cbn;
      [|rewrite andb_false_r; repeat split].
    destruct (_memoLevel this =? 1); cbn; [|repeat split].
    destruct (instancing sv); cbn; repeat split.
  - apply Z.ltb_ge in Hlt.
    destruct (Z.eqb_spec (_memoLevel this) 1) as [E|E]; [lia|]. repeat split.
Qed.

(** The box that a frame tests is the box that the node holds afterwards. *)
Lemma render_viewBox (sv : Services) (this : BoundingBox) :
  _viewBox (after (_render sv this)) = viewBoxOf sv this.
Proof.
  destruct (render_after_refresh sv this) as [[_ [_ [_ [H _]]]] _]. exact H.
Qed.

Lemma render_objectCoords (sv : Services) (this : BoundingBox) :
  _objectCoords (after (_render sv this)) = _objectCoords (r_this (refresh sv this)).
Proof.
  destruct (render_after_refresh sv this) as [[_ [_ [H _]]] _]. exact H.
Qed.

(** The first frame after construction or after a setter call, on a
    statically configured node: it completes without asking for parameters
    and rebuilds the box from the current extents.  Under an identity
    transform the box is that of the extents, the transform is read once and
    the node becomes fully cached.  Otherwise the box is the bounds of the
    eight transformed corners and the transform is read twice; the node
    becomes fully cached and drops the corners exactly when the transform is
    fixed and no instancing is active, and stays at memo level 1 with the
    corners kept otherwise. *)
Theorem dirty_static_frame_rebuilds_box (sv : Services) (this : BoundingBox) :
  _fixedParams this = true -> _memoLevel this = 0 ->
  let f := _render sv this in
  completion f = Normal /\
  calls isGetParams (trace f) = 0%nat /\
  _viewBox (after f) = viewBoxOf sv this /\
  (identity (getTransform sv) = true ->
     viewBoxOf sv this = extentBox this /\
     _memoLevel (after f) = 2 /\
     calls isGetTransform (trace f) = 1%nat /\
     calls isInstancing (trace f) = 0%nat) /\
  (identity (getTransform sv) = false ->
     viewBoxOf sv this = transformedBox sv (Some (objectCorners this)) /\
     calls isGetTransform (trace f) = 2%nat /\
     (fixed (getTransform sv) = true -> instancing sv = false ->
        _memoLevel (after f) = 2 /\ _objectCoords (after f) = None) /\
     (fixed (getTransform sv) = false \/ instancing sv = true ->
        _memoLevel (after f) = 1 /\
        _objectCoords (after f) = Some (objectCorners this))).
Proof.
  intros Hfixed Hmemo f. subst f.
  destruct (refresh_static_geometry sv this Hfixed) as [Hc [_ [_ [Hv [Ho Ht]]]]].
  destruct (render_after_refresh sv this) as [_ [Hcomp _]].
  rewrite (setup_calls_of_frame isGetParams sv this getParams_is_setup),
    (setup_calls_of_frame isGetTransform sv this getTransform_is_setup),
    (setup_calls_of_frame isInstancing sv this instancing_is_setup),
    render_memo, render_objectCoords, render_viewBox, refresh_memo.
  unfold viewBoxOf. rewrite Hv, Ho, Ht, Hmemo, Hfixed. cbn.
  split; [congruence|]. split.
  { destruct (identity (getTransform sv)); [reflexivity|].
    destruct (fixed (getTransform sv)); reflexivity. }
  split; [reflexivity|]. split.
  - intros ->. repeat split.
  - intros ->. split; [reflexivity|]. split.
    { destruct (fixed (getTransform sv)); reflexivity. }
    split.
    + intros -> ->. split; reflexivity.
    + intros [->| ->]; [split; reflexivity|].
      rewrite andb_false_r. split; reflexivity.
Qed.

Lemma dirty_static_frame_rebuilds_box_witness :
  _fixedParams lodNode = true /\ _memoLevel lodNode = 0 /\
  viewBoxOf (frameUnder (cube None) fixedTranslation false 250) lodNode
    = Some (mkBox3 (-1, -2, -2) (3, 2, 2)) /\
  _memoLevel (after (_render (frameUnder (cube None) fixedTranslation false 250)
                             lodNode)) = 2.
Proof.
  pose proof (dirty_static_frame_rebuilds_box
                (frameUnder (cube None) fixedTranslation false 250) lodNode
                eq_refl eq_refl) as H.
  cbv zeta in H. destruct H as [_ [_ [_ [_ H]]]].
  destruct (H eq_refl) as [H1 [_ [H2 _]]].
  destruct (H2 eq_refl eq_refl) as [H3 _].
  split; [reflexivity|]. split; [reflexivity|]. split; [exact H1|exact H3].
Defined.

(** A frame at memo level 1 completes without asking for parameters, reads
    the transform once and tests the bounds of the transformed cached
    corners.  It consults the instancing module exactly when the transform is
    fixed; the node becomes fully cached and drops the corners when,
    moreover, no instancing is active, and is left at level 1 with its
    corners otherwise. *)
Theorem level1_frame_retransforms_corners (sv : Services) (this : BoundingBox) :
  _memoLevel this = 1 ->
  let f := _render sv this in
  completion f = Normal /\
  viewBoxOf sv this = transformedBox sv (_objectCoords this) /\
  calls isGetParams (trace f) = 0%nat /\
  calls isGetTransform (trace f) = 1%nat /\
  calls isInstancing (trace f) = (if fixed (getTransform sv) then 1 else 0)%nat /\
  _memoLevel (after f) =
    (if fixed (getTransform sv) && negb (instancing sv) then 2 else 1) /\
  _objectCoords (after f) =
    (if fixed (getTransform sv) && negb (instancing sv) then None
     else _objectCoords this).
Proof.
  intros Hmemo f. subst f.
  assert (Hne : _memoLevel this <> 0) by lia.
  destruct (refresh_clean_geometry sv this Hne) as [Hc [_ [_ [_ [Hv [Ho Ht]]]]]].
  destruct (render_after_refresh sv this) as [_ [Hcomp _]].
  rewrite (setup_calls_of_frame isGetParams sv this getParams_is_setup),
    (setup_calls_of_frame isGetTransform sv this getTransform_is_setup),
    (setup_calls_of_frame isInstancing sv this instancing_is_setup),
    render_memo, render_objectCoords, refresh_memo.
  unfold viewBoxOf. rewrite Hv, Ho, Ht, Hmemo. cbn.
  split; [congruence|]. split; [reflexivity|].
  destruct (fixed (getTransform sv)); cbn; repeat split.
Qed.

Lemma level1_frame_retransforms_corners_witness :
  _memoLevel (after (_render (nearFrame 250) lodNode)) = 1 /\
  _memoLevel (after (_render (frameUnder (cube None) fixedTranslation false 250)
                             (after (_render (nearFrame 250) lodNode)))) = 2 /\
  _objectCoords (after (_render (frameUnder (cube None) fixedTranslation false 250)
                                (after (_render (nearFrame 250) lodNode)))) = None.
Proof.
  pose proof (level1_frame_retransforms_corners
                (frameUnder (cube None) fixedTranslation false 250)
                (after (_render (nearFrame 250) lodNode)) eq_refl) as H.
  cbv zeta in H. destruct H as [_ [_ [_ [_ [_ [H1 H2]]]]]].
  split; [reflexivity|]. split; [exact H1|exact H2].
Defined.

(** ** Dynamically configured nodes *)

Lemma refresh_dynamic (sv : Services) (this : BoundingBox) :
  _memoLevel this = 0 -> _fixedParams this = false ->
  let ic := _init (getParams sv) (set_state STATE_INITIAL this) in
  let r := refresh sv this in
  match snd ic with
  | Throw e => r = mkRefreshed (fst ic) [GetParams] (Throw e)
  | Normal =>
      r_completion r = Normal /\
      (_xmin (r_this r), _ymin (r_this r), _zmin (r_this r),
       _xmax (r_this r), _ymax (r_this r), _zmax (r_this r)) =
      (_xmin (fst ic), _ymin (fst ic), _zmin (fst ic),
       _xmax (fst ic), _ymax (fst ic), _zmax (fst ic)) /\
      _levels (r_this r) = _levels (fst ic) /\
      _viewBox (r_this r) =
        (if identity (getTransform sv) then extentBox (fst ic)
         else transformedBox sv (Some (objectCorners (fst ic)))) /\
      _objectCoords (r_this r) =
        (if identity (getTransform sv) then _objectCoords this
         else Some (objectCorners (fst ic))) /\
      r_trace r =
        [GetParams; GetTransform]
        ++ (if identity (getTransform sv) then [] else [GetTransform])
  end.
Proof.
  intros Hmemo Hfixed ic r. subst ic r.
  unfold refresh, refreshDirty, refreshView, extentBox, transformedBox; cbn.
  rewrite Hmemo, Hfixed; cbn.
  pose proof (init_frame (getParams sv) (set_state STATE_INITIAL this)) as Hinit.
  destruct (_init (getParams sv) (set_state STATE_INITIAL this)) as [t0 c0].
  cbn in Hinit. destruct Hinit as [_ [_ [Hco [_ [Hm _]]]]].
  destruct c0; cbn; [|reflexivity].
  destruct (identity (getTransform sv)); cbn; [repeat split; exact Hco|].
  rewrite Hm, Hmemo; cbn.
  destruct (fixed (getTransform sv)); cbn; repeat split.
Qed.

Lemma init_children_only (params : Params) (a b : BoundingBox) :
  _children a = _children b -> snd (_init params a) = snd (_init params b).
Proof.
  intros H. unfold _init. cbn. rewrite H.
  destruct (levels params) as [lv|]; [|reflexivity].
  destruct (negb _); [reflexivity|]. destruct (descends lv); reflexivity.
Qed.

Lemma init_throws_iff (params : Params) (this : BoundingBox) (e : ConfigError) :
  snd (_init params this) = Throw e <->
  exists lv, levels params = Some lv /\
    e = (if Nat.eqb (List.length lv) (List.length (_children this))
         then LevelsAscendingUnique else LevelsValueForEachChild) /\
    (List.length lv <> List.length (_children this) \/ AdjacentDescent lv).
Proof.
  pose proof (init_outcome params this) as H.
  destruct (levels params) as [lv|].
  - destruct (Nat.eqb (List.length lv) (List.length (_children this))) eqn:Hb;
      cbn in H.
    + apply Nat.eqb_eq in Hb.
      destruct (descends lv) eqn:Hd; destruct H as [H _]; rewrite H; split.
      * intros Heq. injection Heq as <-. exists lv.
        split; [reflexivity|]. apply Nat.eqb_eq in Hb. rewrite Hb.
        split; [reflexivity|].
        right. apply descends_true_iff. exact Hd.
      * intros [lv' [Heq [-> _]]]. injection Heq as <-.
        apply Nat.eqb_eq in Hb. rewrite Hb. reflexivity.
      * discriminate.
      * intros [lv' [Heq [_ [Hl|Ha]]]]; injection Heq as <-; [contradiction|].
        apply descends_true_iff in Ha. congruence.
    + destruct H as [H _]. rewrite H. split.
      * intros Heq. injection Heq as <-. exists lv.
        split; [reflexivity|]. rewrite Hb. split; [reflexivity|].
        left. apply Nat.eqb_neq. exact Hb.
      * intros [lv' [Heq [-> _]]]. injection Heq as <-.
        rewrite Hb. reflexivity.
  - destruct H as [H _]. rewrite H. split; [discriminate|].
    intros [lv [Heq _]]. discriminate.
Qed.

(** A frame ends with a configuration error exactly when the node is
    dirty and dynamically configured and the parameters supplied for the
    frame carry a threshold table that has not one entry per child, or in
    which some entry is greater than or equal to its successor (a table with
    a NaN entry can pass that comparison); the length check comes first.  Such a frame has only
    asked for the parameters.  Frames of statically configured nodes and
    frames of nodes that are not dirty always complete. *)
Theorem frame_throws_iff (sv : Services) (this : BoundingBox) :
  (forall e,
     completion (_render sv this) = Throw e <->
     _memoLevel this = 0 /\ _fixedParams this = false /\
     exists lv, levels (getParams sv) = Some lv /\
       e = (if Nat.eqb (List.length lv) (List.length (_children this))
            then LevelsAscendingUnique else LevelsValueForEachChild) /\
       (List.length lv <> List.length (_children this) \/ AdjacentDescent lv)) /\
  (forall e, completion (_render sv this) = Throw e ->
     trace (_render sv this) = [GetParams] /\ newState (_render sv this) = None) /\
  (_fixedParams this = true \/ _memoLevel this <> 0 ->
     completion (_render sv this) = Normal).
Proof.
  destruct (render_after_refresh sv this) as [_ [Hcomp _]].
  assert (Hiff : forall e,
     completion (_render sv this) = Throw e <->
     _memoLevel this = 0 /\ _fixedParams this = false /\
     exists lv, levels (getParams sv) = Some lv /\
       e = (if Nat.eqb (List.length lv) (List.length (_children this))
            then LevelsAscendingUnique else LevelsValueForEachChild) /\
       (List.length lv <> List.length (_children this) \/ AdjacentDescent lv)).
  { intros e. rewrite Hcomp. split.
    - intros H. destruct (refresh_throw sv this e H) as [Hm [Hf [Hi _]]].
      split; [exact Hm|]. split; [exact Hf|].
      apply (init_throws_iff (getParams sv) (set_state STATE_INITIAL this) e).
      exact Hi.
    - intros [Hm [Hf Hex]].
      apply (init_throws_iff (getParams sv) (set_state STATE_INITIAL this) e) in Hex.
      pose proof (refresh_dynamic sv this Hm Hf) as Hr. cbv zeta in Hr.
      rewrite Hex in Hr. rewrite Hr. reflexivity. }
  split; [exact Hiff|]. split.
  - intros e He. rewrite Hcomp in He.
    rewrite (render_throw sv this e He). cbn.
    destruct (refresh_throw sv this e He) as [_ [_ [_ [_ ->]]]]. auto.
  - intros Hs. destruct (completion (_render sv this)) as [|e]; [reflexivity|].
    destruct (proj1 (Hiff e) eq_refl) as [Hm [Hf _]].
    destruct Hs as [Hs|Hs]; congruence.
Qed.

Lemma dynamic_frame (sv : Services) (this : BoundingBox) :
  _memoLevel this = 0 -> _fixedParams this = false ->
  let f := _render sv this in
  calls isGetParams (trace f) = 1%nat /\
  _fixedParams (after f) = false /\
  (identity (getTransform sv) = false -> _memoLevel (after f) = 0) /\
  (completion f = Normal ->
     (_xmin (after f), _ymin (after f), _zmin (after f),
      _xmax (after f), _ymax (after f), _zmax (after f)) =
     (orZero (xmin (getParams sv)), orZero (ymin (getParams sv)),
      orZero (zmin (getParams sv)), orZero (xmax (getParams sv)),
      orZero (ymax (getParams sv)), orZero (zmax (getParams sv))) /\
     _levels (after f) =
       match levels (getParams sv) with
       | Some lv => Some lv
       | None => _levels this
       end /\
     (identity (getTransform sv) = true ->
        _memoLevel (after f) = 2 /\ _viewBox (after f) = extentBox (after f))).
Proof.
  intros Hm Hf f. subst f.
  destruct (render_after_refresh sv this)
    as [[Hx [Hl [_ [Hv [Hmm [Hfp _]]]]]] [Hcomp _]].
  destruct (refresh_frame sv this) as [_ [_ [_ [Hfix _]]]].
  rewrite (setup_calls_of_frame isGetParams sv this getParams_is_setup).
  pose proof (refresh_dynamic sv this Hm Hf) as Hr. cbv zeta in Hr.
  pose proof (init_frame (getParams sv) (set_state STATE_INITIAL this)) as Hinit.
  pose proof (init_outcome (getParams sv) (set_state STATE_INITIAL this)) as Hout.
  cbv zeta in Hinit.
  destruct Hinit as [_ [_ [_ [_ [_ [_ [_ [_ [X1 [X2 [X3 [X4 [X5 X6]]]]]]]]]]]]].
  rewrite Hfp, Hfix, Hmm, refresh_memo, Hm, Hf, Hcomp. cbn.
  destruct (snd (_init (getParams sv) (set_state STATE_INITIAL this))) eqn:Hs.
  - destruct Hr as [Hc [Hex [Hlv [Hvb [_ Ht]]]]]. rewrite Hc, Ht.
    split; [destruct (identity (getTransform sv)); reflexivity|].
    split; [reflexivity|]. split; [intros ->; reflexivity|]. intros _.
    split; [rewrite Hx, Hex; congruence|]. split.
    + rewrite Hl, Hlv. destruct (levels (getParams sv)) as [lv|].
      * destruct (negb _); [destruct Hout; congruence|].
        destruct (descends lv); destruct Hout; congruence.
      * destruct Hout as [_ ->]. reflexivity.
    + intros Hid. rewrite Hid. split; [reflexivity|].
      rewrite Hv, Hvb, Hid. unfold extentBox.
      injection Hx as -> -> -> -> -> ->. injection Hex as -> -> -> -> -> ->.
      reflexivity.
  - rewrite Hr. cbn. split; [reflexivity|]. split; [reflexivity|].
    split; [reflexivity|]. discriminate.
Qed.

(** A dirty frame of a dynamically configured node asks for the parameters
    once.  When it completes, the extents are those of the parameters
    (missing ones read 0), the threshold table is the supplied one, or the
    previous one when none is supplied; under an identity transform the node
    becomes fully cached with the box of the new extents, and under any other
    transform it stays dirty. *)
Theorem dynamic_dirty_frame_applies_parameters (sv : Services) (this : BoundingBox) :
  _memoLevel this = 0 -> _fixedParams this = false ->
  let f := _render sv this in
  calls isGetParams (trace f) = 1%nat /\
  _fixedParams (after f) = false /\
  (identity (getTransform sv) = false -> _memoLevel (after f) = 0) /\
  (completion f = Normal ->
     (_xmin (after f), _ymin (after f), _zmin (after f),
      _xmax (after f), _ymax (after f), _zmax (after f)) =
     (orZero (xmin (getParams sv)), orZero (ymin (getParams sv)),
      orZero (zmin (getParams sv)), orZero (xmax (getParams sv)),
      orZero (ymax (getParams sv)), orZero (zmax (getParams sv))) /\
     _levels (after f) =
       match levels (getParams sv) with
       | Some lv => Some lv
       | None => _levels this
       end /\
     (identity (getTransform sv) = true ->
        _memoLevel (after f) = 2 /\ _viewBox (after f) = extentBox (after f))).
Proof.
  exact (dynamic_frame sv this).
Qed.

Lemma dynamic_dirty_frame_applies_parameters_witness :
  _memoLevel dynamicLodNode = 0 /\ _fixedParams dynamicLodNode = false /\
  _xmin (after (_render (configuringFrame (cube (Some lodLevels)) 250)
                        dynamicLodNode)) = -2 /\
  _levels (after (_render (configuringFrame (cube (Some lodLevels)) 250)
                          dynamicLodNode)) = Some lodLevels.
Proof.
  pose proof (dynamic_dirty_frame_applies_parameters
                (configuringFrame (cube (Some lodLevels)) 250) dynamicLodNode
                eq_refl eq_refl) as H.
  cbv zeta in H. destruct H as [_ [_ [_ H]]].
  destruct (H eq_refl) as [Hx [Hl _]].
  split; [reflexivity|]. split; [reflexivity|].
  split; [|exact Hl].
  exact (f_equal (fun t => fst (fst (fst (fst (fst t))))) Hx).
Defined.

(** As long as its model transform is not the identity, a dynamically
    configured node stays dirty: every frame, completed or not, asks for the
    parameters exactly once. *)
Theorem dynamic_node_reconfigures_every_frame
    (frames : list Services) (this : BoundingBox) :
  _memoLevel this = 0 -> _fixedParams this = false ->
  Forall (fun sv => identity (getTransform sv) = false) frames ->
  Forall (fun f => calls isGetParams (trace f) = 1%nat /\ _memoLevel (after f) = 0)
         (run this frames).
Proof.
  revert this. induction frames as [|sv rest IH]; intros this Hm Hf Hall; cbn.
  - constructor.
  - inversion Hall as [|? ? Hid Hrest]; subst.
    destruct (dynamic_frame sv this Hm Hf) as [Hc [Hfp [Hmem _]]].
    constructor; [auto|]. apply IH; auto.
Qed.

Lemma dynamic_node_reconfigures_every_frame_witness :
  Forall (fun f => calls isGetParams (trace f) = 1%nat /\ _memoLevel (after f) = 0)
         (run dynamicLodNode
              [configuringFrame (cube (Some lodLevels)) 250;
               configuringFrame shortTable 250;
               configuringFrame (cube None) 5]).
Proof.
  apply (dynamic_node_reconfigures_every_frame _ dynamicLodNode eq_refl eq_refl).
  repeat constructor.
Defined.





(** ** The outcome of a frame, in general *)

Ltac frame_cases sv this :=
  destruct (r_completion (refresh sv this)) as [|e] eqn:Hc;
  [ destruct (outerPasses sv this) eqn:Ho;
    [ destruct (innerPasses sv this) eqn:Hi;
      [ destruct (frustumResult sv this) eqn:Hf;
        [ assert (Hr : reachesFrustum sv this)
            by (unfold reachesFrustum, configures; rewrite Hc, Ho, Hi, Hf;
                repeat split; discriminate);
          rewrite (render_frustum sv this Hr); cbv zeta;
          destruct (levelsOf sv this) as [lv|] eqn:Hlv;
          [ destruct (selectLevel lv (projectedSize sv this) (List.length lv))
              as [i|] eqn:Hsel | ]
        | assert (Hr : reachesFrustum sv this)
            by (unfold reachesFrustum, configures; rewrite Hc, Ho, Hi, Hf;
                repeat split; discriminate);
          rewrite (render_frustum sv this Hr); cbv zeta;
          destruct (levelsOf sv this) as [lv|] eqn:Hlv;
          [ destruct (selectLevel lv (projectedSize sv this) (List.length lv))
              as [i|] eqn:Hsel | ]
        | rewrite (render_outside_frustum sv this Hc Ho Hi Hf) ]
      | rewrite (render_intersect_outer sv this Hc Ho Hi) ]
    | rewrite (render_outside_outer sv this Hc Ho) ]
  | rewrite (render_throw sv this e Hc) ];
  cbn [after trace completion newState].

Lemma newState_classify (sv : Services) (this : BoundingBox) :
  newState (_render sv this) =
  match completion (_render sv this) with
  | Normal => Some (classify (outerPasses sv this) (innerPasses sv this)
                             (frustumResult sv this))
  | Throw _ => None
  end.
Proof.
  frame_cases sv this; reflexivity.
Qed.

(** The state computed by a completed frame is a function of the three
    test answers alone: 1 when the outer test fails, 2 when only the inner
    test fails, 3 when the frustum test answers OUTSIDE and 4 otherwise.  It
    is never INITIAL, and it is 4 exactly when the frame reaches the frustum
    stage.  A frame that throws computes no state. *)
Theorem computed_state_is_classification (sv : Services) (this : BoundingBox) :
  let f := _render sv this in
  newState f =
    match completion f with
    | Normal => Some (classify (outerPasses sv this) (innerPasses sv this)
                               (frustumResult sv this))
    | Throw _ => None
    end /\
  (forall k, newState f = Some k -> 1 <= k <= 4) /\
  (newState f = Some STATE_INTERSECTING_FRUSTUM <-> reachesFrustum sv this) /\
  (newState f = Some STATE_OUTSIDE_OUTER_LOCALITY <->
     configures sv this /\ outerPasses sv this = false).
Proof.
  intros f. subst f. split; [apply newState_classify|].
  rewrite newState_classify.
  destruct (render_after_refresh sv this) as [_ [Hcomp _]]. rewrite Hcomp.
  unfold reachesFrustum, configures.
  destruct (r_completion (refresh sv this)) as [|e].
  - destruct (outerPasses sv this), (innerPasses sv this), (frustumResult sv this);
      cbn; (split; [intros k H; injection H as <-; cbv; split; discriminate|]);
      split; split; try discriminate; try (intros; repeat split; discriminate);
      try (intros [_ [? [? ?]]]; congruence); try (intros [_ ?]; congruence);
      auto.
  - split; [discriminate|]. split; split; try discriminate; intros [H _]; discriminate.
Qed.

Lemma after_state (sv : Services) (this : BoundingBox) (ns : Z) :
  newState (_render sv this) = Some ns ->
  _state (after (_render sv this)) =
  (if (_memoLevel this =? 0) && (_state this =? ns) then STATE_INITIAL else ns).
Proof.
  frame_cases sv this; intros H;
    first [ discriminate H
          | injection H as <-;
            try (unfold selected; cbn [fst _state set_level]);
            apply stored_state; discriminate ].
Qed.

(** After a completed frame the state field holds the state computed by
    the frame, with one exception: when the frame started dirty and computed
    the state that the node held on entry, the field holds INITIAL.  In
    particular the field equals the computed state after every frame that did
    not start dirty. *)
Theorem stored_state_follows_computed_state
    (sv : Services) (this : BoundingBox) (ns : Z) :
  newState (_render sv this) = Some ns ->
  _state (after (_render sv this)) =
    (if (_memoLevel this =? 0) && (_state this =? ns) then STATE_INITIAL else ns) /\
  (_memoLevel this <> 0 -> _state (after (_render sv this)) = ns) /\
  (_state this <> ns -> _state (after (_render sv this)) = ns).
Proof.
  intros H. rewrite (after_state sv this ns H). split; [reflexivity|]. split.
  - intros Hm. apply Z.eqb_neq in Hm. rewrite Hm. reflexivity.
  - intros Hs. apply Z.eqb_neq in Hs. rewrite Hs, andb_false_r. reflexivity.
Qed.

Lemma stored_state_follows_computed_state_witness :
  newState (_render (nearFrame 250) cachedNode) = Some 4 /\
  _state (after (_render (nearFrame 250) cachedNode)) = 4.
Proof.
  assert (Hm : _memoLevel cachedNode <> 0) by discriminate.
  destruct (stored_state_follows_computed_state (nearFrame 250) cachedNode 4 eq_refl)
    as [_ [H _]].
  split; [reflexivity|exact (H Hm)].
Defined.

Lemma renders_announced (ns os : Z) (this : BoundingBox) :
  renders (announced ns os this) = [].
Proof.
  unfold announced. destruct (negb _ && _); reflexivity.
Qed.

Lemma renders_selected (origLevel : Z) (i : nat) (this : BoundingBox) :
  renders (snd (selected origLevel i this)) =
  [if (0 <? List.length (_children this))%nat then RenderNode i else RenderNodes].
Proof.
  unfold selected. cbn [snd]. rewrite renders_app.
  destruct (negb _ && _); destruct (List.length (_children this)); reflexivity.
Qed.

(** The child-traversal requests of a frame. *)
Lemma renders_of_frame (sv : Services) (this : BoundingBox) :
  renders (trace (_render sv this)) =
  match newState (_render sv this) with
  | Some 2 => [RenderNodes]
  | Some 4 =>
      match levelsOf sv this with
      | None => [RenderNodes]
      | Some lv =>
          match selectLevel lv (projectedSize sv this) (List.length lv) with
          | Some i => [if (0 <? List.length (_children this))%nat
                       then RenderNode i else RenderNodes]
          | None => []
          end
      end
  | _ => []
  end.
Proof.
  frame_cases sv this; rewrite ?Hlv, ?Hsel; observe sv this;
    rewrite ?renders_announced, ?renders_selected; cbn;
    try reflexivity.
  - destruct (settled_refresh_frame STATE_INTERSECTING_FRUSTUM sv this)
      as [_ [-> _]]. reflexivity.
  - destruct (settled_refresh_frame STATE_INTERSECTING_FRUSTUM sv this)
      as [_ [-> _]]. reflexivity.
Qed.

(** A frame makes at most one child-traversal request.  It makes one
    exactly when it computes INTERSECT_OUTER, or computes INTERSECT_FRUSTUM
    with no threshold table in force or with some threshold at most the
    projected size; the request is for all children unless a table is in
    force. *)
Theorem frame_requests_at_most_one_traversal (sv : Services) (this : BoundingBox) :
  let f := _render sv this in
  (List.length (renders (trace f)) <= 1)%nat /\
  (renders (trace f) <> [] <->
     newState f = Some STATE_INTERSECTING_OUTER_LOCALITY \/
     (newState f = Some STATE_INTERSECTING_FRUSTUM /\
      (levelsOf sv this = None \/
       exists lv i, levelsOf sv this = Some lv /\
                    HighestAtMost lv (projectedSize sv this) i))) /\
  (levelsOf sv this = None -> renders (trace f) <> [] ->
     renders (trace f) = [RenderNodes] /\
     visited (_children this) (trace f) = _children this).
Proof.
  intros f. subst f.
  assert (Hvis : forall tr, renders tr = [RenderNodes] ->
                 visited (_children this) tr = _children this).
  { intros tr. unfold renders, visited.
    induction tr as [|c tr IH]; cbn; [discriminate|].
    destruct c; cbn; auto.
    - intros H. discriminate.
    - intros H. injection H as H.
      assert (E : flat_map (visitedBy (_children this)) tr = []).
      { clear IH. induction tr as [|c tr IH]; cbn; [reflexivity|].
        cbn in H. destruct c; cbn in *; try discriminate; auto. }
      rewrite E. apply app_nil_r. }
  pose proof (renders_of_frame sv this) as Hre.
  destruct (newState (_render sv this)) as [k|] eqn:Hns.
  - assert (Hk : k = 1 \/ k = 2 \/ k = 3 \/ k = 4).
    { pose proof (newState_classify sv this) as Hcl. rewrite Hns in Hcl.
      destruct (completion (_render sv this)); [|discriminate].
      injection Hcl as ->.
      destruct (outerPasses sv this), (innerPasses sv this), (frustumResult sv this);
        cbn; auto. }
    destruct Hk as [-> | [-> | [-> | ->]]]; cbn in Hre.
    + rewrite Hre. split; [cbn; lia|]. split; [|intros _ H; congruence].
      split; [congruence|]. intros [H|[H _]]; discriminate.
    + rewrite Hre. split; [cbn; lia|]. split; [|intros _ _; split; auto].
      split; [auto|discriminate].
    + rewrite Hre. split; [cbn; lia|]. split; [|intros _ H; congruence].
      split; [congruence|]. intros [H|[H _]]; discriminate.
    + destruct (levelsOf sv this) as [lv|] eqn:Hlv.
      * destruct (selectLevel lv (projectedSize sv this) (List.length lv))
          as [i|] eqn:Hsel; rewrite Hre.
        -- split; [cbn; lia|]. split; [|discriminate].
           split; [|discriminate]. intros _. right. split; [reflexivity|].
           right. exists lv, i. split; [reflexivity|].
           apply select_highest. exact Hsel.
        -- split; [cbn; lia|]. split; [|discriminate].
           split; [congruence|].
           intros [H|[_ [H|[lv' [i [E Hi]]]]]]; try discriminate.
           injection E as <-. apply select_highest in Hi. congruence.
      * rewrite Hre. split; [cbn; lia|]. split; [|intros _ _; split; auto].
        split; [auto|discriminate].
  - rewrite Hre. split; [cbn; lia|]. split; [|intros _ H; congruence].
    split; [congruence|]. intros [H|[H _]]; discriminate.
Qed.

(** ** Events *)

Lemma fired_announced_unheard (name : string) (ns os : Z) (this : BoundingBox) :
  _listeners this name = false -> fired name (announced ns os this) = [].
Proof.
  intros H. unfold announced.
  destruct (negb (ns =? os)); [|reflexivity].
  destruct (_listeners this "state-changed") eqn:E; [|reflexivity].
  unfold fired. cbn [andb flat_map app].
  destruct (String.eqb_spec "state-changed" name) as [<-|Hne]; [congruence|reflexivity].
Qed.

Lemma fired_selected_unheard (name : string) (origLevel : Z) (i : nat)
    (this : BoundingBox) :
  _listeners this name = false -> fired name (snd (selected origLevel i this)) = [].
Proof.
  intros H. unfold selected. cbn [snd]. rewrite fired_app.
  assert (E : fired name [if (0 <? List.length (_children this))%nat
                          then RenderNode i else RenderNodes] = []).
  { destruct (0 <? List.length (_children this))%nat; reflexivity. }
  rewrite E, app_nil_r.
  destruct (negb (origLevel =? Z.of_nat i)); [|reflexivity].
  destruct (_listeners this "lod-selected") eqn:El; [|reflexivity].
  unfold fired. cbn [andb flat_map app].
  destruct (String.eqb_spec "lod-selected" name) as [<-|Hne]; [congruence|reflexivity].
Qed.

Lemma events_announced (ns os : Z) (this : BoundingBox) :
  filter isFireEvent (announced ns os this) =
    map (FireEvent "state-changed") (fired "state-changed" (announced ns os this)) /\
  fired "lod-selected" (announced ns os this) = [] /\
  (List.length (fired "state-changed" (announced ns os this)) <= 1)%nat.
Proof.
  unfold announced. destruct (negb _ && _); cbn; repeat split; lia.
Qed.

Lemma events_selected (origLevel : Z) (i : nat) (this : BoundingBox) :
  filter isFireEvent (snd (selected origLevel i this)) =
    map (FireEvent "lod-selected")
        (fired "lod-selected" (snd (selected origLevel i this))) /\
  fired "state-changed" (snd (selected origLevel i this)) = [] /\
  (List.length (fired "lod-selected" (snd (selected origLevel i this))) <= 1)%nat.
Proof.
  unfold selected. cbn [snd].
  destruct (negb _ && _); destruct (List.length (_children this));
    cbn; repeat split; lia.
Qed.

Lemma listeners_of_frame (ns : Z) (sv : Services) (this : BoundingBox) :
  _listeners (r_this (refresh sv this)) = _listeners this /\
  _listeners (settled ns (_state this) (r_this (refresh sv this))) = _listeners this.
Proof.
  destruct (settled_refresh_frame ns sv this) as [_ [_ [H _]]].
  destruct (refresh_frame sv this) as [_ [_ [H' _]]]. auto.
Qed.

(** A frame fires an event only for a name that has a listener, and only
    under the names state-changed and lod-selected; it fires each of the two
    at most once, and state-changed before lod-selected. *)
Theorem events_need_listeners (sv : Services) (this : BoundingBox) :
  let f := _render sv this in
  (forall name, _listeners this name = false -> fired name (trace f) = []) /\
  filter isFireEvent (trace f) =
    map (FireEvent "state-changed") (fired "state-changed" (trace f))
    ++ map (FireEvent "lod-selected") (fired "lod-selected" (trace f)) /\
  (List.length (fired "state-changed" (trace f)) <= 1)%nat /\
  (List.length (fired "lod-selected" (trace f)) <= 1)%nat.
Proof.
  intros f. subst f. split.
  - intros name Hn.
    assert (Ha : forall ns,
              fired name (announced ns (_state this) (r_this (refresh sv this))) = []).
    { intros ns. apply fired_announced_unheard.
      rewrite (proj1 (listeners_of_frame ns sv this)). exact Hn. }
    assert (Hs : forall i,
              fired name (snd (selected (_level this) i
                (settled STATE_INTERSECTING_FRUSTUM (_state this)
                         (r_this (refresh sv this))))) = []).
    { intros i. apply fired_selected_unheard.
      rewrite (proj2 (listeners_of_frame STATE_INTERSECTING_FRUSTUM sv this)).
      exact Hn. }
    frame_cases sv this; rewrite ?fired_app, ?fired_refresh, ?Ha, ?Hs; reflexivity.
  - assert (Hsetup : filter isFireEvent (r_trace (refresh sv this)) = []).
    { apply filter_setup; [|apply refresh_trace_setup].
      intros [] H; try discriminate; reflexivity. }
    frame_cases sv this;
      rewrite ?filter_app, ?fired_app, ?fired_refresh, ?Hsetup;
      repeat match goal with
             | |- context [announced ?ns ?os ?t] =>
                 let H1 := fresh in let H2 := fresh in let H3 := fresh in
                 destruct (events_announced ns os t) as [H1 [H2 H3]];
                 rewrite ?H1, ?H2;
                 generalize dependent (fired "state-changed" (announced ns os t));
                 intros
             end;
      repeat match goal with
             | |- context [snd (selected ?o ?i ?t)] =>
                 let H1 := fresh in let H2 := fresh in let H3 := fresh in
                 destruct (events_selected o i t) as [H1 [H2 H3]];
                 rewrite ?H1, ?H2;
                 generalize dependent (fired "lod-selected" (snd (selected o i t)));
                 intros
             end;
      cbn; rewrite ?app_nil_r, ?length_app; cbn; repeat split; lia.
Qed.

(** ** The box handed to the collaborators *)

Lemma probes_announced (ns os : Z) (this : BoundingBox) :
  filter isProbe (announced ns os this) = [].
Proof.
  unfold announced. destruct (negb _ && _); reflexivity.
Qed.

Lemma probes_selected (origLevel : Z) (i : nat) (this : BoundingBox) :
  filter isProbe (snd (selected origLevel i this)) = [].
Proof.
  unfold selected. cbn [snd]. rewrite filter_app.
  destruct (negb _ && _); destruct (List.length (_children this)); reflexivity.
Qed.

Lemma probes_refresh (sv : Services) (this : BoundingBox) :
  filter isProbe (r_trace (refresh sv this)) = [].
Proof.
  apply filter_setup; [|apply refresh_trace_setup].
  intros [] H; try discriminate; reflexivity.
Qed.

(** The calls of a frame that hand a box to a collaborator are an initial
    segment of: outer-radius test, inner-radius test, frustum test,
    projected-size query, each made at most once and all on the same box, the
    one that the node holds after the frame.  The segment is empty exactly
    when the frame throws, and reaches the projected-size query exactly when
    the frame reaches the frustum stage with a threshold table in force. *)
Theorem probes_form_a_prefix (sv : Services) (this : BoundingBox) :
  let f := _render sv this in
  _viewBox (after f) = viewBoxOf sv this /\
  exists k,
    filter isProbe (trace f) = firstn k (probeSequence (viewBoxOf sv this)) /\
    (k <= 4)%nat /\
    (k = 0%nat <-> completion f <> Normal) /\
    (k = 4%nat <-> reachesFrustum sv this /\ levelsOf sv this <> None).
Proof.
  intros f. subst f. split; [apply render_viewBox|].
  pose proof (probes_refresh sv this) as Hp.
  destruct (r_completion (refresh sv this)) as [|e] eqn:Hc.
  - destruct (outerPasses sv this) eqn:Ho.
    + destruct (innerPasses sv this) eqn:Hi.
      * destruct (frustumResult sv this) eqn:Hf.
        1,2: assert (Hr : reachesFrustum sv this)
               by (unfold reachesFrustum, configures; rewrite Hc, Ho, Hi, Hf;
                   repeat split; discriminate);
             rewrite (render_frustum sv this Hr); cbv zeta;
             (destruct (levelsOf sv this) as [lv|] eqn:Hlv;
              [ destruct (selectLevel lv (projectedSize sv this) (List.length lv));
                exists 4%nat
              | exists 3%nat ]);
             cbn [after trace completion];
             rewrite ?filter_app, Hp, probes_announced, ?probes_selected;
             (split; [reflexivity|]); (split; [lia|]);
             (split; [split; [discriminate|congruence]|]);
             split; try discriminate; try (intros; split; [exact Hr|discriminate]);
             try reflexivity; intros [_ H]; congruence.
        exists 3%nat. rewrite (render_outside_frustum sv this Hc Ho Hi Hf).
        cbn [after trace completion].
        rewrite ?filter_app, Hp, probes_announced.
        split; [reflexivity|]. split; [lia|].
        split; [split; [discriminate|congruence]|].
        split; [discriminate|]. intros [[_ [_ [_ H]]] _]. congruence.
      * exists 2%nat. rewrite (render_intersect_outer sv this Hc Ho Hi).
        cbn [after trace completion].
        rewrite ?filter_app, Hp, probes_announced.
        split; [reflexivity|]. split; [lia|].
        split; [split; [discriminate|congruence]|].
        split; [discriminate|]. intros [[_ [_ [H _]]] _].
        unfold innerPasses in *. congruence.
    + exists 1%nat. rewrite (render_outside_outer sv this Hc Ho).
      cbn [after trace completion].
      rewrite ?filter_app, Hp, probes_announced.
      split; [reflexivity|]. split; [lia|].
      split; [split; [discriminate|congruence]|].
      split; [discriminate|]. intros [[_ [H _]] _].
      unfold outerPasses in *. congruence.
  - exists 0%nat. rewrite (render_throw sv this e Hc).
    cbn [after trace completion]. rewrite Hp.
    split; [reflexivity|]. split; [lia|].
    split; [split; [discriminate|reflexivity]|].
    split; [discriminate|]. intros [[H _] _].
    unfold configures in H. congruence.
Qed.

(** ** Selection and size *)

(** The selection loop is monotone in the projected size: if size [s]
    selects index [i], every size [s' >= s] selects an index [i' >= i] (the
    loop never falls through for the larger size).  For a strictly ascending
    table the selected index splits the table: exactly the thresholds at
    indices up to [i] are at most [s]. *)
Theorem lod_selection_is_monotone
    (lv : list Num) (s s' : Z) (i : nat) (origLevel : Z) (this : BoundingBox) :
  HighestAtMost lv s i -> s <= s' ->
  fst (lodLoop origLevel s lv (List.length lv) this) = set_level (Z.of_nat i) this /\
  (exists i', (i <= i')%nat /\ HighestAtMost lv s' i' /\
     fst (lodLoop origLevel s' lv (List.length lv) this)
       = set_level (Z.of_nat i') this) /\
  (StrictlyAscending lv ->
     forall j t, nth_error lv j = Some (Fin t) -> (t <= s <-> (j <= i)%nat)).
Proof.
  intros Hi Hle. split; [|split].
  - rewrite lodLoop_eq. apply select_highest in Hi. rewrite Hi. reflexivity.
  - destruct (highest_or_none lv s') as [[i' Hi']|Hnone].
    + exists i'. split; [|split; [exact Hi'|]].
      * destruct (Nat.le_gt_cases i i') as [H|H]; [exact H|].
        destruct Hi as [[t [Ht Hts]] _]. destruct Hi' as [_ Hup].
        specialize (Hup i t H Ht). lia.
      * rewrite lodLoop_eq. apply select_highest in Hi'. rewrite Hi'. reflexivity.
    + destruct Hi as [[t [Ht Hts]] _].
      specialize (Hnone t (nth_error_In _ _ Ht)). lia.
  - intros Hasc j t Hj. destruct Hi as [[ti [Hti Htis]] Hup]. split.
    + intros Hts. destruct (Nat.le_gt_cases j i) as [H|H]; [exact H|].
      specialize (Hup j t H Hj). lia.
    + intros Hji. destruct (Nat.eq_dec j i) as [->|Hne].
      * congruence.
      * assert (t < ti)
          by (apply (Hasc j i (Fin t) (Fin ti)); [lia|assumption|assumption]).
        lia.
Qed.

Lemma lod_selection_is_monotone_witness :
  HighestAtMost lodLevels 250 1 /\ 250 <= 450 /\
  exists i', (1 <= i')%nat /\ HighestAtMost lodLevels 450 i'.
Proof.
  assert (H1 : HighestAtMost lodLevels 250 1) by (apply select_highest; reflexivity).
  assert (H2 : 250 <= 450) by discriminate.
  destruct (lod_selection_is_monotone lodLevels 250 450 1 (-1) lodNode H1 H2)
    as [_ [[i' [Hle [Hi' _]]] _]].
  split; [exact H1|]. split; [exact H2|]. exists i'. auto.
Defined.

(** ** Configuration that is accepted *)

(** [_init] completes exactly when the parameters carry no threshold
    table, or one with an entry per child in which no entry is greater than
    or equal to its successor.  For a table without NaN that is: one entry
    per child, strictly ascending; a table with a NaN entry can pass the
    comparison without ascending.  [_init] then stores the six extents
    (missing ones as 0) and the supplied table; when no table is supplied the
    previous table stays in force, so a reconfiguration cannot switch
    level-of-detail mode off.  State, selected level, memo level, cache,
    children and listeners are not touched. *)
Theorem init_accepts_valid_configuration (params : Params) (this : BoundingBox) :
  let this' := fst (_init params this) in
  (snd (_init params this) = Normal <->
     levels params = None \/
     exists lv, levels params = Some lv /\
       List.length lv = List.length (_children this) /\ ~ AdjacentDescent lv) /\
  (forall lv, levels params = Some lv -> NaNFree lv ->
     (snd (_init params this) = Normal <->
      List.length lv = List.length (_children this) /\ StrictlyAscending lv)) /\
  (snd (_init params this) = Normal ->
     _levels this' = match levels params with
                     | Some lv => Some lv
                     | None => _levels this
                     end) /\
  getBoundary this' =
    mkParams (Some (orZero (xmin params))) (Some (orZero (ymin params)))
             (Some (orZero (zmin params))) (Some (orZero (xmax params)))
             (Some (orZero (ymax params))) (Some (orZero (zmax params))) None /\
  _level this' = _level this /\ _state this' = _state this /\
  _memoLevel this' = _memoLevel this /\ _viewBox this' = _viewBox this /\
  _objectCoords this' = _objectCoords this /\
  _children this' = _children this /\ _listeners this' = _listeners this.
Proof.
  intros this'. subst this'.
  pose proof (init_outcome params this) as Ho.
  destruct (init_frame params this)
    as [H1 [H2 [H3 [H4 [H5 [_ [H7 [H8 [X1 [X2 [X3 [X4 [X5 X6]]]]]]]]]]]]].
  assert (Hiff : snd (_init params this) = Normal <->
     levels params = None \/
     exists lv, levels params = Some lv /\
       List.length lv = List.length (_children this) /\ ~ AdjacentDescent lv).
  { destruct (levels params) as [lv|]; [|split; [auto|intros _; apply Ho]].
    destruct (Nat.eqb_spec (List.length lv) (List.length (_children this)))
      as [E|E]; cbn in Ho.
    - destruct (descends lv) eqn:Hd; destruct Ho as [-> _]; split.
      + discriminate.
      + intros [H|[lv' [Heq [_ Ha]]]]; [discriminate|]. injection Heq as <-.
        exfalso. apply Ha. apply descends_true_iff. exact Hd.
      + intros _. right. exists lv. split; [reflexivity|]. split; [exact E|].
        intros Ha. apply descends_true_iff in Ha. congruence.
      + reflexivity.
    - destruct Ho as [-> _]. split; [discriminate|].
      intros [H|[lv' [Heq [Hl _]]]]; [discriminate|]. injection Heq as <-.
      contradiction. }
  split; [exact Hiff|]. split; [|split; [|split]].
  - intros lv Hlv Hn. rewrite Hiff, Hlv. split.
    + intros [H|[lv' [Heq [Hl Ha]]]]; [discriminate|]. injection Heq as <-.
      split; [exact Hl|].
      apply (descends_false_iff lv Hn).
      destruct (descends lv) eqn:Hd; [|reflexivity].
      exfalso. apply Ha. apply descends_true_iff. exact Hd.
    + intros [Hl Ha]. right. exists lv. split; [reflexivity|]. split; [exact Hl|].
      intros Hd. exact (descent_not_ascending lv Hd Ha).
  - intros Hn. destruct (levels params) as [lv|]; [|apply Ho].
    destruct (negb _); [destruct Ho; congruence|].
    destruct (descends lv); destruct Ho; congruence.
  - unfold getBoundary. rewrite X1, X2, X3, X4, X5, X6. reflexivity.
  - repeat split; assumption.
Qed.

(** A table with a NaN entry passes both checks of [_init] although it is
    not strictly ascending: [5, NaN, 3] is installed on a node with three
    children. *)
Lemma nan_table_is_accepted :
  let table := [Fin 5; NaN; Fin 3] in
  snd (construct (cube (Some table)) [100; 101; 102]%nat noListeners) = Normal /\
  _levels (fst (construct (cube (Some table)) [100; 101; 102]%nat noListeners))
    = Some table /\
  ~ StrictlyAscending table /\ ~ AdjacentDescent table.
Proof.
  cbv zeta. split; [reflexivity|]. split; [reflexivity|]. split.
  - intros H. exact (H 0%nat 1%nat (Fin 5) NaN (Nat.lt_0_1) eq_refl eq_refl).
  - intros H. apply descends_true_iff in H. discriminate.
Qed.

(** ** Setters and getters *)

(** Each of the six setters stores its argument, which the matching getter
    returns, keeps the other five extents and everything else, and marks the
    node dirty.  Setting the same extent twice keeps the last value, and
    setters of different extents commute. *)
Theorem setters_store_and_mark_dirty (v w : Z) (this : BoundingBox) :
  (getXMin (setXMin v this) = v /\ getYMin (setYMin v this) = v /\
   getZMin (setZMin v this) = v /\ getXMax (setXMax v this) = v /\
   getYMax (setYMax v this) = v /\ getZMax (setZMax v this) = v) /\
  (getBoundary (setXMin v this) =
     mkParams (Some v) (Some (_ymin this)) (Some (_zmin this))
              (Some (_xmax this)) (Some (_ymax this)) (Some (_zmax this)) None /\
   getBoundary (setYMin v this) =
     mkParams (Some (_xmin this)) (Some v) (Some (_zmin this))
              (Some (_xmax this)) (Some (_ymax this)) (Some (_zmax this)) None /\
   getBoundary (setZMin v this) =
     mkParams (Some (_xmin this)) (Some (_ymin this)) (Some v)
              (Some (_xmax this)) (Some (_ymax this)) (Some (_zmax this)) None /\
   getBoundary (setXMax v this) =
     mkParams (Some (_xmin this)) (Some (_ymin this)) (Some (_zmin this))
              (Some v) (Some (_ymax this)) (Some (_zmax this)) None /\
   getBoundary (setYMax v this) =
     mkParams (Some (_xmin this)) (Some (_ymin this)) (Some (_zmin this))
              (Some (_xmax this)) (Some v) (Some (_zmax this)) None /\
   getBoundary (setZMax v this) =
     mkParams (Some (_xmin this)) (Some (_ymin this)) (Some (_zmin this))
              (Some (_xmax this)) (Some (_ymax this)) (Some v) None) /\
  (forall op, isSetter op = true ->
     _memoLevel (step this op) = 0 /\ sameBesidesExtents (step this op) this) /\
  (setXMin v (setXMin w this) = setXMin v this /\
   setZMax v (setZMax w this) = setZMax v this) /\
  (setXMin v (setYMax w this) = setYMax w (setXMin v this) /\
   setXMin v (setXMax w this) = setXMax w (setXMin v this) /\
   setZMin v (setYMin w this) = setYMin w (setZMin v this)).
Proof.
  split; [repeat split|]. split; [repeat split|]. split.
  - intros [] H; try discriminate; repeat split.
  - repeat split.
Qed.


(** A setter call takes effect in the next frame of a statically
    configured node, whatever was cached before: the frame tests the box of
    the new extents under an identity transform, and the bounds of the eight
    transformed corners of the new extents otherwise. *)
Theorem setter_takes_effect_in_next_frame
    (op : Op) (sv : Services) (this : BoundingBox) :
  isSetter op = true -> _fixedParams this = true ->
  let this' := step this op in
  let f := _render sv this' in
  completion f = Normal /\
  _viewBox (after f) =
    (if identity (getTransform sv) then extentBox this'
     else transformedBox sv (Some (objectCorners this'))) /\
  getBoundary (after f) = getBoundary this'.
Proof.
  intros Hop Hfixed this' f.
  assert (Hm : _memoLevel this' = 0 /\ _fixedParams this' = true).
  { subst this'. destruct op; try discriminate; cbn; auto. }
  destruct Hm as [Hm Hf'].
  destruct (refresh_static_geometry sv this' Hf') as [Hc [Hx [_ [Hv _]]]].
  destruct (render_after_refresh sv this') as [[Hx' _] [Hcomp _]].
  subst f. rewrite render_viewBox. unfold viewBoxOf. rewrite Hv, Hm, Hcomp. cbn.
  split; [exact Hc|]. split; [reflexivity|].
  unfold getBoundary. rewrite Hx in Hx'.
  injection Hx' as -> -> -> -> -> ->. reflexivity.
Qed.

Lemma setter_takes_effect_in_next_frame_witness :
  isSetter (OpSetXMax 7) = true /\ _fixedParams cachedNode = true /\
  _viewBox cachedNode = Some (mkBox3 (-2, -2, -2) (2, 2, 2)) /\
  _viewBox (after (_render (frameUnder (cube None) identityTransform false 250)
                           (step cachedNode (OpSetXMax 7))))
    = Some (mkBox3 (-2, -2, -2) (7, 2, 2)).
Proof.
  pose proof (setter_takes_effect_in_next_frame (OpSetXMax 7)
                (frameUnder (cube None) identityTransform false 250) cachedNode
                eq_refl eq_refl) as H.
  cbv zeta in H. destruct H as [_ [H _]].
  split; [reflexivity|]. split; [reflexivity|]. split; [reflexivity|exact H].
Defined.

(** ** Invariants of a node over its lifetime *)

Lemma render_fields (sv : Services) (this : BoundingBox) :
  _children (after (_render sv this)) = _children this /\
  _listeners (after (_render sv this)) = _listeners this /\
  _fixedParams (after (_render sv this)) = _fixedParams this /\
  _levels (after (_render sv this)) = levelsOf sv this.
Proof.
  destruct (render_after_refresh sv this)
    as [[_ [Hl [_ [_ [_ [Hf [Hc Hli]]]]]]] _].
  destruct (refresh_frame sv this) as [_ [Hc' [Hli' [Hf' _]]]].
  unfold levelsOf. repeat split; congruence.
Qed.

Lemma init_table_valid (params : Params) (this : BoundingBox) :
  TableValid this -> TableValid (fst (_init params this)).
Proof.
  intros Hv lv Hlv.
  pose proof (init_outcome params this) as Ho.
  destruct (init_frame params this) as [_ [_ [_ [_ [_ [_ [Hc _]]]]]]].
  rewrite Hc.
  destruct (levels params) as [lv'|].
  - destruct (Nat.eqb_spec (List.length lv') (List.length (_children this)))
      as [E|E]; cbn in Ho.
    + destruct (descends lv') eqn:Hd; destruct Ho as [_ Hl]; rewrite Hl in Hlv.
      * apply Hv. exact Hlv.
      * injection Hlv as <-. split; [exact E|].
        intros Ha. apply descends_true_iff in Ha. congruence.
    + destruct Ho as [_ Hl]. rewrite Hl in Hlv. apply Hv. exact Hlv.
  - destruct Ho as [_ Hl]. rewrite Hl in Hlv. apply Hv. exact Hlv.
Qed.

Lemma refresh_levels (sv : Services) (this : BoundingBox) :
  levelsOf sv this = _levels this \/
  (_memoLevel this = 0 /\ _fixedParams this = false /\
   levelsOf sv this = _levels (fst (_init (getParams sv) (set_state STATE_INITIAL this)))).
Proof.
  unfold levelsOf.
  destruct (Z.eq_dec (_memoLevel this) 0) as [Hm|Hm];
    [|left; apply refresh_levels_static; auto].
  destruct (_fixedParams this) eqn:Hf;
    [left; apply refresh_levels_static; auto|].
  right. split; [exact Hm|]. split; [reflexivity|].
  destruct (r_completion (refresh sv this)) as [|e] eqn:Hc.
  - apply (refresh_normal sv this Hc Hm Hf).
  - destruct (refresh_throw sv this e Hc) as [_ [_ [_ [-> _]]]]. reflexivity.
Qed.

Lemma refresh_table_valid (sv : Services) (this : BoundingBox) :
  TableValid this ->
  forall lv, levelsOf sv this = Some lv ->
    List.length lv = List.length (_children this) /\ ~ AdjacentDescent lv.
Proof.
  intros Hv lv Hlv.
  destruct (refresh_levels sv this) as [E|[_ [_ E]]]; rewrite E in Hlv.
  - apply Hv. exact Hlv.
  - assert (Hv' : TableValid (set_state STATE_INITIAL this)) by exact Hv.
    apply (init_table_valid (getParams sv)) in Hv'.
    destruct (init_frame (getParams sv) (set_state STATE_INITIAL this))
      as [_ [_ [_ [_ [_ [_ [Hc _]]]]]]].
    specialize (Hv' lv Hlv). rewrite Hc in Hv'. exact Hv'.
Qed.

Lemma refresh_cache_valid (sv : Services) (this : BoundingBox) :
  CacheValid this -> CacheValid (r_this (refresh sv this)).
Proof.
  intros [Hrange [Hbox Hco]]. unfold CacheValid.
  pose proof (refresh_memo sv this) as Hm.
  destruct (Z.eq_dec (_memoLevel this) 0) as [H0|H0].
  - rewrite H0 in Hm. cbn in Hm. destruct (_fixedParams this) eqn:Hf.
    + destruct (refresh_static_geometry sv this Hf) as [_ [Hx [_ [Hv [Ho _]]]]].
      rewrite Hm, Hv, Ho, H0. cbn. unfold objectCorners.
      injection Hx as -> -> -> -> -> ->.
      destruct (identity (getTransform sv)); cbn;
        [repeat split; try lia; discriminate|].
      destruct (fixed (getTransform sv) && negb (instancing sv)); cbn;
        repeat split; try lia; discriminate.
    + pose proof (refresh_dynamic sv this H0 Hf) as Hr. cbv zeta in Hr.
      destruct (snd (_init (getParams sv) (set_state STATE_INITIAL this))) eqn:Hs.
      * destruct Hr as [Hc [_ [_ [Hv _]]]]. rewrite Hc in Hm. rewrite Hm, Hv.
        destruct (identity (getTransform sv)); cbn;
          repeat split; try lia; discriminate.
      * rewrite Hr in Hm |- *. cbn in Hm |- *. rewrite Hm.
        repeat split; try lia.
  - destruct (refresh_clean_geometry sv this H0) as [_ [Hx [_ [_ [Hv [Ho _]]]]]].
    apply Z.eqb_neq in H0. rewrite H0 in Hm. rewrite Hm, Hv, Ho.
    unfold objectCorners at 1. injection Hx as -> -> -> -> -> ->.
    fold (objectCorners this).
    apply Z.eqb_neq in H0.
    destruct (Z.eq_dec (_memoLevel this) 1) as [H1|H1].
    + rewrite H1. cbn.
      destruct (fixed (getTransform sv) && negb (instancing sv)); cbn;
        repeat split; try lia; try discriminate. intros _. apply Hco. exact H1.
    + assert (H2 : _memoLevel this = 2) by lia. rewrite H2. cbn.
      repeat split; try lia. intros _. apply Hbox. lia.
Qed.

Lemma after_level (sv : Services) (this : BoundingBox) :
  _level (after (_render sv this)) = _level this \/
  exists lv i, levelsOf sv this = Some lv /\
    selectLevel lv (projectedSize sv this) (List.length lv) = Some i /\
    _level (after (_render sv this)) = Z.of_nat i.
Proof.
  destruct (refresh_frame sv this) as [Hl _].
  pose proof (fun ns => proj1 (settled_refresh_frame ns sv this)) as Hs.
  cbv zeta in Hs.
  frame_cases sv this; rewrite ?Hs; auto.
  - right. exists lv, i. auto.
  - right. exists lv, i. auto.
Qed.

Lemma after_state_range (sv : Services) (this : BoundingBox) :
  0 <= _state this <= 4 -> 0 <= _state (after (_render sv this)) <= 4.
Proof.
  intros Hr.
  destruct (newState (_render sv this)) as [ns|] eqn:Hns.
  - rewrite (after_state sv this ns Hns).
    assert (1 <= ns <= 4).
    { pose proof (newState_classify sv this) as Hcl. rewrite Hns in Hcl.
      destruct (completion (_render sv this)); [|discriminate].
      injection Hcl as ->.
      destruct (outerPasses sv this), (innerPasses sv this), (frustumResult sv this);
        cbv; split; discriminate. }
    destruct (_ && _); cbv [STATE_INITIAL]; lia.
  - pose proof (newState_classify sv this) as Hcl. rewrite Hns in Hcl.
    destruct (render_after_refresh sv this) as [_ [Hcomp _]].
    destruct (completion (_render sv this)) as [|e] eqn:Hc; [discriminate|].
    symmetry in Hcomp. rewrite (render_throw sv this e Hcomp). cbn [after].
    destruct (refresh_frame sv this) as [_ [_ [_ [_ ->]]]].
    destruct (_memoLevel this =? 0); cbv [STATE_INITIAL]; lia.
Qed.

Lemma wellformed_render (sv : Services) (this : BoundingBox) :
  WellFormed this -> WellFormed (after (_render sv this)).
Proof.
  intros [Ht [Hc [Hl Hs]]].
  destruct (render_fields sv this) as [Hch [_ [_ Hlv]]].
  destruct (render_after_refresh sv this)
    as [[Hx [_ [Hco [Hv [Hm _]]]]] _].
  split; [|split; [|split]].
  - intros lv E. rewrite Hch. rewrite Hlv in E.
    apply (refresh_table_valid sv this Ht lv E).
  - pose proof (refresh_cache_valid sv this Hc) as [H1 [H2 H3]].
    unfold CacheValid, objectCorners. rewrite Hm, Hv, Hco.
    injection Hx as -> -> -> -> -> ->. auto.
  - rewrite Hch. destruct (after_level sv this) as [E|[lv [i [E1 [E2 E3]]]]].
    + rewrite E. exact Hl.
    + rewrite E3. destruct (refresh_table_valid sv this Ht lv E1) as [Hlen _].
      apply selectLevel_Some in E2. lia.
  - apply after_state_range. exact Hs.
Qed.

Lemma wellformed_step (op : Op) (this : BoundingBox) :
  WellFormed this -> WellFormed (step this op).
Proof.
  destruct op; try (apply wellformed_render);
    intros [Ht [[Hr _] [Hl Hs]]];
    (split; [exact Ht|]); (split; [|split; assumption]);
    cbn; repeat split; try lia; intros H; try discriminate; contradiction.
Qed.

Lemma step_fields (op : Op) (this : BoundingBox) :
  _children (step this op) = _children this /\
  _listeners (step this op) = _listeners this /\
  _fixedParams (step this op) = _fixedParams this.
Proof.
  destruct op; try (repeat split; reflexivity).
  destruct (render_fields sv this) as [H1 [H2 [H3 _]]]. auto.
Qed.

Lemma wellformed_constructed (this : BoundingBox) :
  Constructed this -> WellFormed this.
Proof.
  assert (Hfresh : forall fp ch li, WellFormed (fresh fp ch li)).
  { intros fp ch li. split; [intros lv E; discriminate|].
    split; [|unfold fresh, STATE_INITIAL; cbn [_level _state _children]; split; lia].
    unfold CacheValid. cbn. split; [lia|]. split; intros H; [lia|discriminate]. }
  intros [[ch [li ->]]|[p [ch [li Hc]]]]; [apply Hfresh|].
  unfold construct in Hc.
  destruct (Hfresh true ch li) as [Ht [Hcv [Hl Hs]]].
  pose proof (init_table_valid p _ Ht) as Ht'.
  destruct (init_frame p (fresh true ch li))
    as [H1 [H2 [H3 [H4 [H5 [_ [H7 _]]]]]]].
  rewrite Hc in Ht', H1, H2, H3, H4, H5, H7. cbn [fst] in *.
  split; [exact Ht'|]. split; [|split].
  - unfold CacheValid. rewrite H5. cbn.
    split; [lia|]. split; intros H; [lia|discriminate].
  - rewrite H1, H7. exact Hl.
  - rewrite H2. exact Hs.
Qed.

Lemma no_descent_ascending (lv : list Num) :
  ~ AdjacentDescent lv -> NaNFree lv -> StrictlyAscending lv.
Proof.
  intros Ha Hn. apply (descends_false_iff lv Hn).
  destruct (descends lv) eqn:Hd; [|reflexivity].
  exfalso. apply Ha. apply descends_true_iff. exact Hd.
Qed.

(** Over any sequence of setter calls and frames applied to a constructed
    node, whether or not the frames complete: the threshold table, if any,
    has one entry per child and no entry greater than or equal to its
    successor, so that it ascends strictly when it holds no NaN; the selected
    level is -1 or the index of a child; the state is one of the five state
    values; the memo level is 0, 1 or 2, a node that is not dirty holds a
    box, and a node at level 1 holds the corners of its current extents;
    children, listeners and the kind of configuration never change. *)
Theorem wellformed_is_invariant (this : BoundingBox) (ops : list Op) :
  Constructed this ->
  WellFormed (steps this ops) /\
  (forall lv, _levels (steps this ops) = Some lv -> NaNFree lv ->
     StrictlyAscending lv) /\
  _children (steps this ops) = _children this /\
  _listeners (steps this ops) = _listeners this /\
  _fixedParams (steps this ops) = _fixedParams this.
Proof.
  intros Hc. apply wellformed_constructed in Hc.
  assert (H : WellFormed (steps this ops) /\
              _children (steps this ops) = _children this /\
              _listeners (steps this ops) = _listeners this /\
              _fixedParams (steps this ops) = _fixedParams this).
  { revert this Hc. unfold steps.
    induction ops as [|op rest IH]; intros this Hw; cbn; [auto|].
    destruct (IH (step this op) (wellformed_step op this Hw)) as [H1 [H2 [H3 H4]]].
    destruct (step_fields op this) as [E1 [E2 E3]].
    repeat split; try apply H1; congruence. }
  destruct H as [Hw [H2 [H3 H4]]].
  split; [exact Hw|]. split; [|auto].
  intros lv Hlv Hn. destruct Hw as [Ht _].
  destruct (Ht lv Hlv) as [_ Ha]. apply no_descent_ascending; assumption.
Qed.

Lemma lodNode_constructed : Constructed lodNode.
Proof.
  right. exists (cube (Some lodLevels)), [100; 101; 102; 103]%nat, allListeners.
  reflexivity.
Defined.

Lemma wellformed_is_invariant_witness :
  Constructed lodNode /\
  WellFormed (steps lodNode [OpRender (nearFrame 250); OpSetXMax 7;
                             OpRender farFrame; OpSetBoundary (cube None)]).
Proof.
  split; [exact lodNode_constructed|].
  exact (proj1 (wellformed_is_invariant lodNode
                  [OpRender (nearFrame 250); OpSetXMax 7;
                   OpRender farFrame; OpSetBoundary (cube None)]
                  lodNode_constructed)).
Defined.

Lemma refresh_box_of_wellformed (sv : Services) (this : BoundingBox) :
  CacheValid this -> r_completion (refresh sv this) = Normal ->
  viewBoxOf sv this <> None.
Proof.
  intros [_ [Hbox _]] Hc. unfold viewBoxOf.
  destruct (Z.eq_dec (_memoLevel this) 0) as [H0|H0].
  - destruct (_fixedParams this) eqn:Hf.
    + destruct (refresh_static_geometry sv this Hf) as [_ [_ [_ [-> _]]]].
      rewrite H0. cbn. destruct (identity (getTransform sv)); discriminate.
    + pose proof (refresh_dynamic sv this H0 Hf) as Hr. cbv zeta in Hr.
      destruct (snd (_init (getParams sv) (set_state STATE_INITIAL this))).
      * destruct Hr as [_ [_ [_ [-> _]]]].
        destruct (identity (getTransform sv)); discriminate.
      * rewrite Hr in Hc. discriminate.
  - destruct (refresh_clean_geometry sv this H0) as [_ [_ [_ [_ [-> _]]]]].
    destruct (_memoLevel this <? 2); [discriminate|]. apply Hbox. exact H0.
Qed.

Lemma wellformed_steps (ops : list Op) (this : BoundingBox) :
  WellFormed this -> WellFormed (steps this ops).
Proof.
  revert this. unfold steps. induction ops as [|op rest IH]; intros this Hw;
    cbn; [exact Hw|]. apply IH, wellformed_step, Hw.
Qed.

Lemma steps_children (ops : list Op) (this : BoundingBox) :
  _children (steps this ops) = _children this.
Proof.
  revert this. unfold steps.
  induction ops as [|op rest IH]; intros this; cbn; [reflexivity|].
  rewrite IH. apply step_fields.
Qed.

(** Every completed frame of a constructed node, after any sequence of
    setter calls and frames, hands a box (never null) to the tests. *)
Theorem constructed_node_tests_a_box
    (this : BoundingBox) (ops : list Op) (sv : Services) :
  Constructed this ->
  completion (_render sv (steps this ops)) = Normal ->
  viewBoxOf sv (steps this ops) <> None /\
  _viewBox (after (_render sv (steps this ops))) <> None.
Proof.
  intros Hc Hn. apply wellformed_constructed in Hc.
  destruct (wellformed_steps ops this Hc) as [_ [Hcv _]].
  destruct (render_after_refresh sv (steps this ops)) as [_ [Hcomp _]].
  rewrite Hcomp in Hn. rewrite render_viewBox.
  split; apply refresh_box_of_wellformed; assumption.
Qed.

Lemma constructed_node_tests_a_box_witness :
  Constructed lodNode /\
  viewBoxOf farFrame (steps lodNode [OpSetXMax 7; OpRender (nearFrame 5)]) <> None.
Proof.
  split; [exact lodNode_constructed|].
  exact (proj1 (constructed_node_tests_a_box lodNode
                  [OpSetXMax 7; OpRender (nearFrame 5)] farFrame
                  lodNode_constructed eq_refl)).
Defined.

(** On a constructed node, after any sequence of setter calls and frames,
    a frame that selects level [i] finds a child at index [i]: it requests
    and visits exactly that child, the table in force has one entry per
    child, none of them greater than or equal to its successor, and a
    lod-selected payload carries an old
    level between -1 and n-1 and a different new level between 0 and n-1,
    for n children. *)
Theorem constructed_node_visits_selected_child
    (this : BoundingBox) (ops : list Op) (sv : Services) (lv : list Num) (i : nat) :
  Constructed this ->
  let node := steps this ops in
  let f := _render sv node in
  reachesFrustum sv node -> levelsOf sv node = Some lv ->
  HighestAtMost lv (projectedSize sv node) i ->
  List.length lv = List.length (_children this) /\ ~ AdjacentDescent lv /\
  (exists c, nth_error (_children this) i = Some c /\
             renders (trace f) = [RenderNode i] /\
             visited (_children node) (trace f) = [c]) /\
  (forall o n, In (LevelParams o n) (fired "lod-selected" (trace f)) ->
     -1 <= o < Z.of_nat (List.length (_children this)) /\
     0 <= n < Z.of_nat (List.length (_children this)) /\ o <> n).
Proof.
  intros Hc node f Hr Hlv Hi.
  assert (Hch : _children node = _children this) by apply steps_children.
  apply wellformed_constructed in Hc.
  destruct (wellformed_steps ops this Hc) as [Ht [_ [Hl _]]].
  fold node in Ht, Hl.
  destruct (refresh_table_valid sv node Ht lv Hlv) as [Hlen Hasc].
  destruct (render_selected sv node lv i Hr Hlv Hi)
    as [_ [_ [_ [_ [Hre [Hvi Hfi]]]]]].
  fold f in Hre, Hvi, Hfi.
  assert (Hin : (i < List.length (_children node))%nat).
  { rewrite <- Hlen. destruct Hi as [[t [Hti _]] _].
    apply nth_error_Some. congruence. }
  rewrite <- Hch. split; [exact Hlen|]. split; [exact Hasc|]. split.
  - destruct (nth_error (_children node) i) as [c|] eqn:Ec;
      [|apply nth_error_None in Ec; lia].
    exists c. split; [reflexivity|]. rewrite Hre, Hvi.
    destruct (_children node) as [|c0 rest] eqn:E; [cbn in Hin; lia|].
    cbn [List.length Nat.ltb Nat.leb visitedBy]. rewrite Ec. auto.
  - intros o n Hp. rewrite Hfi in Hp.
    destruct (Z.eqb_spec (_level node) (Z.of_nat i)) as [E|E]; cbn in Hp;
      [contradiction|].
    destruct (_listeners node "lod-selected"); cbn in Hp; [|contradiction].
    destruct Hp as [Hp|[]]. injection Hp as <- <-.
    split; [exact Hl|]. split; [lia|exact E].
Qed.

Lemma constructed_node_visits_selected_child_witness :
  Constructed lodNode /\
  reachesFrustum (nearFrame 450) (steps lodNode [OpRender (nearFrame 250)]) /\
  exists c, nth_error (_children lodNode) 2 = Some c /\
    visited (_children (steps lodNode [OpRender (nearFrame 250)]))
            (trace (_render (nearFrame 450)
                            (steps lodNode [OpRender (nearFrame 250)]))) = [c].
Proof.
  assert (Hr : reachesFrustum (nearFrame 450)
                 (steps lodNode [OpRender (nearFrame 250)]))
    by (repeat split; discriminate).
  assert (Hi : HighestAtMost lodLevels
                 (projectedSize (nearFrame 450)
                    (steps lodNode [OpRender (nearFrame 250)])) 2)
    by (apply select_highest; reflexivity).
  pose proof (constructed_node_visits_selected_child lodNode
                [OpRender (nearFrame 250)] (nearFrame 450) lodLevels 2%nat
                lodNode_constructed Hr eq_refl Hi) as H.
  cbv zeta in H. destruct H as [_ [_ [[c [Hc [_ Hv]]] _]]].
  split; [exact lodNode_constructed|]. split; [exact Hr|].
  exists c. split; [exact Hc|exact Hv].
Defined.

Lemma render_table (sv : Services) (this : BoundingBox) :
  _levels (after (_render sv this)) = _levels this \/
  (_memoLevel this = 0 /\ _fixedParams this = false /\
   exists lv, levels (getParams sv) = Some lv /\
              _levels (after (_render sv this)) = Some lv).
Proof.
  destruct (render_fields sv this) as [_ [_ [_ ->]]].
  destruct (refresh_levels sv this) as [E|[Hm [Hf E]]]; [auto|].
  pose proof (init_outcome (getParams sv) (set_state STATE_INITIAL this)) as Ho.
  rewrite E. destruct (levels (getParams sv)) as [lv|].
  - destruct (negb _); [left; apply Ho|].
    destruct (descends lv); [left; apply Ho|].
    right. split; [exact Hm|]. split; [exact Hf|]. exists lv.
    split; [reflexivity|apply Ho].
  - left. apply Ho.
Qed.

(** No setter and no frame removes the threshold table: once a table is
    in force, every later state of the node has one.  A frame changes the
    table only when the node is dirty and dynamically configured and the
    parameters of the frame carry a table, which it then installs. *)
Theorem table_is_never_removed (this : BoundingBox) :
  (forall sv,
     _levels (after (_render sv this)) = _levels this \/
     (_memoLevel this = 0 /\ _fixedParams this = false /\
      exists lv, levels (getParams sv) = Some lv /\
                 _levels (after (_render sv this)) = Some lv)) /\
  (forall ops, _levels this <> None -> _levels (steps this ops) <> None).
Proof.
  split; [intros sv; apply render_table|].
  intros ops. revert this. unfold steps.
  induction ops as [|op rest IH]; intros this Hl; cbn; [exact Hl|].
  apply IH. destruct op; try exact Hl. cbn.
  destruct (render_table sv this) as [E|[_ [_ [lv [_ E]]]]]; rewrite E;
    [exact Hl|discriminate].
Qed.

(** ** Repeated frames *)

Lemma set_viewBox_same (n : BoundingBox) (v : option Box3) :
  _viewBox n = v -> set_viewBox v n = n.
Proof. destruct n; cbn; intros ->; reflexivity. Qed.

Lemma set_level_same (n : BoundingBox) (v : Z) :
  _level n = v -> set_level v n = n.
Proof. destruct n; cbn; intros ->; reflexivity. Qed.

(** A refresh that finds nothing to do. *)
Lemma refresh_idle (sv : Services) (n : BoundingBox) :
  _memoLevel n <> 0 ->
  (_memoLevel n < 2 -> _viewBox n = transformedBox sv (_objectCoords n)) ->
  (_memoLevel n = 1 -> fixed (getTransform sv) && negb (instancing sv) = false) ->
  r_this (refresh sv n) = n /\ r_completion (refresh sv n) = Normal.
Proof.
  intros H0 Hbox Hpro. apply Z.eqb_neq in H0.
  unfold refresh, refreshView. rewrite H0. cbn.
  destruct (Z.ltb_spec (_memoLevel n) 2) as [Hlt|Hge]; [|auto].
  specialize (Hbox Hlt). unfold transformedBox in Hbox.
  rewrite (set_viewBox_same n _ Hbox).
  destruct (fixed (getTransform sv)) eqn:Hfx; [|auto].
  destruct (Z.eqb_spec (_memoLevel n) 1) as [E|E]; [|auto].
  specialize (Hpro E). cbn in Hpro.
  destruct (instancing sv); [auto|discriminate].
Qed.

(** A frame on a node that already holds the outcome of the frame. *)
Lemma quiet_frame (sv : Services) (n : BoundingBox) :
  r_this (refresh sv n) = n -> r_completion (refresh sv n) = Normal ->
  _state n = classify (outerPasses sv n) (innerPasses sv n) (frustumResult sv n) ->
  (forall lv i, reachesFrustum sv n -> levelsOf sv n = Some lv ->
     selectLevel lv (projectedSize sv n) (List.length lv) = Some i ->
     _level n = Z.of_nat i) ->
  after (_render sv n) = n /\ filter isFireEvent (trace (_render sv n)) = [].
Proof.
  intros Hrt Hnorm Hst Hlev.
  assert (Hsetup : filter isFireEvent (r_trace (refresh sv n)) = []).
  { apply filter_setup; [|apply refresh_trace_setup].
    intros [] H; try discriminate; reflexivity. }
  assert (Hq : forall ns, _state n = ns ->
            settled ns (_state n) (r_this (refresh sv n)) = n /\
            announced ns (_state n) (r_this (refresh sv n)) = []).
  { intros ns E. unfold settled, announced. rewrite E, Z.eqb_refl. auto. }
  frame_cases sv n; try discriminate; cbn in Hst;
    destruct (Hq _ Hst) as [Hs Ha]; rewrite ?Hs, ?Ha, ?filter_app, ?Hsetup;
    try (split; reflexivity).
  - assert (Hl : _level n = Z.of_nat i)
      by (apply (Hlev lv i Hr); first [reflexivity|assumption]).
    unfold selected. cbn [fst snd]. rewrite Hl, Z.eqb_refl. cbn.
    split; [apply set_level_same; exact Hl|].
    destruct (List.length (_children n)); reflexivity.
  - assert (Hl : _level n = Z.of_nat i)
      by (apply (Hlev lv i Hr); first [reflexivity|assumption]).
    unfold selected. cbn [fst snd]. rewrite Hl, Z.eqb_refl. cbn.
    split; [apply set_level_same; exact Hl|].
    destruct (List.length (_children n)); reflexivity.
Qed.

(** Rendering a node that is not dirty twice in a row with the same
    collaborator answers: the second frame computes the same state, makes
    the same traversal request, fires no event and leaves the node exactly
    as the first frame left it. *)
Theorem repeated_frame_is_quiet (sv : Services) (this : BoundingBox) :
  _memoLevel this <> 0 ->
  let f1 := _render sv this in
  let f2 := _render sv (after f1) in
  completion f1 = Normal /\ completion f2 = Normal /\
  after f2 = after f1 /\
  filter isFireEvent (trace f2) = [] /\
  newState f2 = newState f1 /\
  renders (trace f2) = renders (trace f1).
Proof.
  intros H0 f1 f2. subst f1 f2.
  set (n1 := after (_render sv this)).
  destruct (refresh_clean_geometry sv this H0) as [Hc [_ [_ [_ [Hv [Ho _]]]]]].
  destruct (render_after_refresh sv this) as [_ [Hcomp1 _]].
  rewrite Hc in Hcomp1.
  assert (Hmemo : _memoLevel n1 =
            if (_memoLevel this =? 1) && fixed (getTransform sv)
               && negb (instancing sv) then 2 else _memoLevel this).
  { subst n1. rewrite render_memo, refresh_memo.
    apply Z.eqb_neq in H0. rewrite H0. reflexivity. }
  assert (Hbox1 : _viewBox n1 = viewBoxOf sv this) by apply render_viewBox.
  assert (Hco1 : _objectCoords n1 = _objectCoords (r_this (refresh sv this)))
    by apply render_objectCoords.
  assert (Hidle : r_this (refresh sv n1) = n1 /\ r_completion (refresh sv n1) = Normal).
  { apply refresh_idle.
    - rewrite Hmemo. destruct (_ && _ && _); lia.
    - rewrite Hmemo, Hbox1, Hco1. unfold viewBoxOf. rewrite Hv, Ho.
      destruct ((_memoLevel this =? 1) && fixed (getTransform sv)
                && negb (instancing sv)); [lia|].
      intros Hlt. apply Z.ltb_lt in Hlt. rewrite Hlt. reflexivity.
    - rewrite Hmemo.
      destruct (Z.eqb_spec (_memoLevel this) 1) as [E|E]; cbn.
      + destruct (fixed (getTransform sv) && negb (instancing sv)); [lia|reflexivity].
      + intros; contradiction. }
  destruct Hidle as [Hrt Hnorm].
  assert (Hvb : viewBoxOf sv n1 = viewBoxOf sv this).
  { unfold viewBoxOf at 1. rewrite Hrt. exact Hbox1. }
  assert (Hlv : levelsOf sv n1 = levelsOf sv this).
  { unfold levelsOf at 1. rewrite Hrt. subst n1. apply render_fields. }
  assert (Hch : _children n1 = _children this) by (subst n1; apply render_fields).
  assert (Hto : outerPasses sv n1 = outerPasses sv this)
    by (unfold outerPasses; rewrite Hvb; reflexivity).
  assert (Hti : innerPasses sv n1 = innerPasses sv this)
    by (unfold innerPasses; rewrite Hvb; reflexivity).
  assert (Htf : frustumResult sv n1 = frustumResult sv this)
    by (unfold frustumResult; rewrite Hvb; reflexivity).
  assert (Hsz : projectedSize sv n1 = projectedSize sv this)
    by (unfold projectedSize; rewrite Hvb; reflexivity).
  assert (Hns1 : newState (_render sv this) =
                 Some (classify (outerPasses sv this) (innerPasses sv this)
                                (frustumResult sv this))).
  { rewrite newState_classify, Hcomp1. reflexivity. }
  destruct (render_after_refresh sv n1) as [_ [Hcomp2 _]]. rewrite Hnorm in Hcomp2.
  assert (Hns2 : newState (_render sv n1) = newState (_render sv this)).
  { rewrite Hns1, newState_classify, Hcomp2, Hto, Hti, Htf. reflexivity. }
  assert (Hquiet : after (_render sv n1) = n1 /\
                   filter isFireEvent (trace (_render sv n1)) = []).
  { apply quiet_frame; try assumption.
    - rewrite Hto, Hti, Htf. subst n1.
      rewrite (after_state sv this _ Hns1).
      apply Z.eqb_neq in H0. rewrite H0. reflexivity.
    - intros lv i [_ [Ho2 [Hi2 Hf2]]] Hl Hsel.
      rewrite Hlv in Hl. rewrite Hsz in Hsel.
      rewrite Hto in Ho2. rewrite Hti in Hi2. rewrite Htf in Hf2.
      assert (Hr : reachesFrustum sv this) by (repeat split; assumption).
      apply select_highest in Hsel.
      subst n1. apply (render_selected sv this lv i Hr Hl Hsel). }
  destruct Hquiet as [Ha He].
  split; [exact Hcomp1|]. split; [exact Hcomp2|]. split; [exact Ha|].
  split; [exact He|]. split; [exact Hns2|].
  rewrite (renders_of_frame sv n1), (renders_of_frame sv this),
    Hns2, Hlv, Hsz, Hch. reflexivity.
Qed.

Lemma repeated_frame_is_quiet_witness :
  _memoLevel cachedNode <> 0 /\
  after (_render (nearFrame 450) (after (_render (nearFrame 450) cachedNode)))
    = after (_render (nearFrame 450) cachedNode) /\
  filter isFireEvent
    (trace (_render (nearFrame 450) (after (_render (nearFrame 450) cachedNode))))
    = [].
Proof.
  assert (Hm : _memoLevel cachedNode <> 0) by discriminate.
  pose proof (repeated_frame_is_quiet (nearFrame 450) cachedNode Hm) as H.
  cbv zeta in H. destruct H as [_ [_ [H1 [H2 _]]]].
  split; [exact Hm|]. split; [exact H1|exact H2].
Defined.

(** With a state-changed listener registered, a completed frame fires
    state-changed exactly when the state it computes differs from the state
    the node held on entry, and then exactly once. *)
Theorem state_changed_fires_on_new_state
    (sv : Services) (this : BoundingBox) (ns : Z) :
  _listeners this "state-changed" = true ->
  newState (_render sv this) = Some ns ->
  (fired "state-changed" (trace (_render sv this)) <> [] <-> ns <> _state this) /\
  (ns <> _state this ->
     fired "state-changed" (trace (_render sv this)) = [StateParams ns ns]) /\
  (ns = _state this -> fired "state-changed" (trace (_render sv this)) = []).
Proof.
  intros Hli Hns. rewrite (state_changed_fired sv this), Hns, Hli.
  destruct (Z.eqb_spec ns (_state this)) as [E|E]; cbn.
  - split; [split; congruence|]. split; [congruence|reflexivity].
  - split; [split; [auto|discriminate]|]. split; [reflexivity|congruence].
Qed.

Lemma state_changed_fires_on_new_state_witness :
  _listeners cachedNode "state-changed" = true /\
  newState (_render farFrame cachedNode) = Some 1 /\
  fired "state-changed" (trace (_render farFrame cachedNode)) = [StateParams 1 1].
Proof.
  destruct (state_changed_fires_on_new_state farFrame cachedNode 1 eq_refl eq_refl)
    as [_ [H _]].
  assert (Hne : 1 <> _state cachedNode) by discriminate.
  split; [reflexivity|]. split; [reflexivity|exact (H Hne)].
Defined.

(** ** The stored state on dirty frames *)

(** C2, where the code departs from the specification.  In every frame in
    which the outer-radius test fails no child is visited or requested, the
    inner-radius test, the frustum test and the projected-size query are not
    called, and the state computed is OUTSIDE_OUTER.  The state that the node
    holds afterwards is not always OUTSIDE_OUTER: the refresh of a dirty
    frame writes INITIAL, and [_changeState], which alone writes the computed
    state, is skipped when that state equals the state held on entry.  On a
    dynamically configured node whose outer-radius test fails in two
    consecutive frames, and on a statically configured node on which
    [setXMin] is called between two such frames, the node holds OUTSIDE_OUTER
    after the first frame and INITIAL after the second. *)
Theorem outer_failure_state_lost_on_dirty_frame :
  (forall sv this,
     configures sv this -> outerPasses sv this = false ->
     let f := _render sv this in
     newState f = Some STATE_OUTSIDE_OUTER_LOCALITY /\
     _state (after f) =
       (if (_memoLevel this =? 0) && (_state this =? STATE_OUTSIDE_OUTER_LOCALITY)
        then STATE_INITIAL else STATE_OUTSIDE_OUTER_LOCALITY) /\
     renders (trace f) = [] /\
     visited (_children this) (trace f) = [] /\
     calls isTestOuter (trace f) = 1%nat /\
     calls isTestInner (trace f) = 0%nat /\
     calls isTestFrustum (trace f) = 0%nat /\
     calls isGetProjectedSize (trace f) = 0%nat) /\
  (let f1 := _render farFrame dynamicLodNode in
   let f2 := _render farFrame (after f1) in
   _state (after f1) = STATE_OUTSIDE_OUTER_LOCALITY /\
   configures farFrame (after f1) /\ outerPasses farFrame (after f1) = false /\
   newState f2 = Some STATE_OUTSIDE_OUTER_LOCALITY /\
   fired "state-changed" (trace f2) = [] /\
   _state (after f2) = STATE_INITIAL) /\
  (let f1 := _render farFrame lodNode in
   let f2 := _render farFrame (setXMin (-3) (after f1)) in
   _state (after f1) = STATE_OUTSIDE_OUTER_LOCALITY /\
   configures farFrame (setXMin (-3) (after f1)) /\
   outerPasses farFrame (setXMin (-3) (after f1)) = false /\
   newState f2 = Some STATE_OUTSIDE_OUTER_LOCALITY /\
   fired "state-changed" (trace f2) = [] /\
   _state (after f2) = STATE_INITIAL).
Proof.
  split; [exact outer_failure_short_circuits|].
  split; cbv zeta; repeat split.
Qed.

(** C3, where the code departs from the specification.  In every frame in
    which the outer and inner tests pass and the frustum test answers OUTSIDE
    no child is visited or requested, the state computed is INTERSECT_INNER
    and every state-changed event of the frame reports it.  The state that
    the node holds afterwards is not always INTERSECT_INNER: on a dirty frame
    entered in that state [_changeState] is skipped and the INITIAL written
    by the refresh stays.  On a dynamically configured node culled by the
    frustum in two consecutive frames, and on a statically configured node on
    which [setXMin] is called between two such frames, the node holds
    INTERSECT_INNER after the first frame and INITIAL after the second. *)
Theorem frustum_failure_state_lost_on_dirty_frame :
  (forall sv this,
     configures sv this -> outerPasses sv this = true ->
     innerPasses sv this = true ->
     frustumResult sv this = _math_OUTSIDE_FRUSTUM ->
     let f := _render sv this in
     newState f = Some STATE_INTERSECTING_INNER_LOCALITY /\
     _state (after f) =
       (if (_memoLevel this =? 0)
           && (_state this =? STATE_INTERSECTING_INNER_LOCALITY)
        then STATE_INITIAL else STATE_INTERSECTING_INNER_LOCALITY) /\
     renders (trace f) = [] /\
     visited (_children this) (trace f) = [] /\
     (forall o n, In (StateParams o n) (fired "state-changed" (trace f)) ->
                  n = STATE_INTERSECTING_INNER_LOCALITY) /\
     calls isTestFrustum (trace f) = 1%nat /\
     calls isGetProjectedSize (trace f) = 0%nat) /\
  (let f1 := _render culledFrame dynamicLodNode in
   let f2 := _render culledFrame (after f1) in
   _state (after f1) = STATE_INTERSECTING_INNER_LOCALITY /\
   configures culledFrame (after f1) /\
   frustumResult culledFrame (after f1) = _math_OUTSIDE_FRUSTUM /\
   newState f2 = Some STATE_INTERSECTING_INNER_LOCALITY /\
   fired "state-changed" (trace f2) = [] /\
   _state (after f2) = STATE_INITIAL) /\
  (let f1 := _render culledFrame lodNode in
   let f2 := _render culledFrame (setXMin (-3) (after f1)) in
   _state (after f1) = STATE_INTERSECTING_INNER_LOCALITY /\
   configures culledFrame (setXMin (-3) (after f1)) /\
   frustumResult culledFrame (setXMin (-3) (after f1)) = _math_OUTSIDE_FRUSTUM /\
   newState f2 = Some STATE_INTERSECTING_INNER_LOCALITY /\
   fired "state-changed" (trace f2) = [] /\
   _state (after f2) = STATE_INITIAL).
Proof.
  split; [exact frustum_failure_reports_inner|].
  split; cbv zeta; repeat split.
Qed.

(** C8, where the code departs from the specification.  In every frame in
    which the outer-radius test passes and the inner-radius test fails all
    children are visited through one [_renderNodes] request, neither the
    frustum test nor the projected-size query is called, and the state
    computed is INTERSECT_OUTER.  The state that the node holds afterwards is
    not always INTERSECT_OUTER: on a dirty frame entered in that state
    [_changeState] is skipped and the INITIAL written by the refresh stays.
    On a dynamically configured node staged in two consecutive frames, and on
    a statically configured node on which [setXMin] is called between two
    such frames, the children are visited in both frames and the node holds
    INTERSECT_OUTER after the first frame and INITIAL after the second. *)
Theorem inner_failure_state_lost_on_dirty_frame :
  (forall sv this,
     configures sv this -> outerPasses sv this = true ->
     innerPasses sv this = false ->
     let f := _render sv this in
     newState f = Some STATE_INTERSECTING_OUTER_LOCALITY /\
     _state (after f) =
       (if (_memoLevel this =? 0)
           && (_state this =? STATE_INTERSECTING_OUTER_LOCALITY)
        then STATE_INITIAL else STATE_INTERSECTING_OUTER_LOCALITY) /\
     renders (trace f) = [RenderNodes] /\
     visited (_children this) (trace f) = _children this /\
     calls isTestInner (trace f) = 1%nat /\
     calls isTestFrustum (trace f) = 0%nat /\
     calls isGetProjectedSize (trace f) = 0%nat) /\
  (let f1 := _render stagingFrame dynamicLodNode in
   let f2 := _render stagingFrame (after f1) in
   _state (after f1) = STATE_INTERSECTING_OUTER_LOCALITY /\
   configures stagingFrame (after f1) /\
   outerPasses stagingFrame (after f1) = true /\
   innerPasses stagingFrame (after f1) = false /\
   newState f2 = Some STATE_INTERSECTING_OUTER_LOCALITY /\
   visited (_children (after f1)) (trace f2) = [100; 101; 102; 103]%nat /\
   fired "state-changed" (trace f2) = [] /\
   _state (after f2) = STATE_INITIAL) /\
  (let f1 := _render stagingFrame lodNode in
   let f2 := _render stagingFrame (setXMin (-3) (after f1)) in
   _state (after f1) = STATE_INTERSECTING_OUTER_LOCALITY /\
   configures stagingFrame (setXMin (-3) (after f1)) /\
   outerPasses stagingFrame (setXMin (-3) (after f1)) = true /\
   innerPasses stagingFrame (setXMin (-3) (after f1)) = false /\
   newState f2 = Some STATE_INTERSECTING_OUTER_LOCALITY /\
   visited (_children (after f1)) (trace f2) = [100; 101; 102; 103]%nat /\
   fired "state-changed" (trace f2) = [] /\
   _state (after f2) = STATE_INITIAL).
Proof.
  split; [exact inner_failure_stages_content|].
  split; cbv zeta; repeat split.
Qed.

(** ** Child dispatch on constructed nodes *)



